(** * pygecko: peak detection on GC-MS chromatograms and plate quantification

    A shallow embedding of [pygecko/gc_tools/peak/peak_detection_ms.py] and
    [pygecko/analysis/analysis.py].

    Numbers.  The sources compute on binary64 values.  Finite samples
    (times, intensities, areas) are modelled by exact rationals [Q]; values
    that can leave the finite range ([np.nan], the outcome of a division)
    are modelled by [pyfloat], the rationals extended with the two
    infinities and not-a-number.  Rounding error is not modelled.

    Exceptions.  A Python function that may raise returns a [result]. *)

From Stdlib Require Import QArith Qround Qabs Lia Lqa.
From stdpp Require Import gmap strings list fin_maps pretty.

Open Scope Q_scope.

(** ** Exceptions *)

Inductive exn : Type :=
| ValueError (msg : string)
| KeyError
| IndexError
| TypeError
| AttributeError (name : string)
| UnboundLocalError (name : string).

Inductive result (A : Type) : Type :=
| Ok (a : A)
| Raise (e : exn).
Arguments Ok {A} a.
Arguments Raise {A} e.

#[global] Instance result_ret : MRet result := fun _ a => Ok a.
#[global] Instance result_bind : MBind result := fun _ _ f m =>
  match m with
  | Ok a => f a
  | Raise e => Raise e
  end.

Definition is_ok {A} (r : result A) : bool :=
  match r with Ok _ => true | Raise _ => false end.

Fixpoint foldM {A S} (f : S -> A -> result S) (s : S) (l : list A) : result S :=
  match l with
  | [] => Ok s
  | a :: l' => s' ← f s a; foldM f s' l'
  end.

(** [l[i]] for a non-negative index. *)
Definition index_get {A} (l : list A) (i : nat) : result A :=
  match l !! i with
  | Some a => Ok a
  | None => Raise IndexError
  end.

(** ** binary64 values that need not be finite *)

Inductive pyfloat : Type :=
| Fin (q : Q)
| Inf (negative : bool)
| NaN.

Definition Qsign_neg (q : Q) : bool := negb (Qle_bool 0 q).
Definition Qis_zero (q : Q) : bool := Qeq_bool q 0.

Definition pf_opp (x : pyfloat) : pyfloat :=
  match x with
  | Fin q => Fin (- q)
  | Inf s => Inf (negb s)
  | NaN => NaN
  end.

Definition pf_add (x y : pyfloat) : pyfloat :=
  match x, y with
  | NaN, _ | _, NaN => NaN
  | Fin a, Fin b => Fin (a + b)
  | Inf s, Fin _ | Fin _, Inf s => Inf s
  | Inf s, Inf t => if Bool.eqb s t then Inf s else NaN
  end.

Definition pf_sub (x y : pyfloat) : pyfloat := pf_add x (pf_opp y).

Definition pf_mul (x y : pyfloat) : pyfloat :=
  match x, y with
  | NaN, _ | _, NaN => NaN
  | Fin a, Fin b => Fin (a * b)
  | Inf s, Fin b | Fin b, Inf s =>
      if Qis_zero b then NaN else Inf (xorb s (Qsign_neg b))
  | Inf s, Inf t => Inf (xorb s t)
  end.

(** numpy division: a zero divisor gives an infinity or not-a-number (and
    a warning), never an exception. *)
Definition pf_div (x y : pyfloat) : pyfloat :=
  match x, y with
  | NaN, _ | _, NaN => NaN
  | Fin a, Fin b =>
      if Qis_zero b then
        (if Qis_zero a then NaN else Inf (Qsign_neg a))
      else Fin (a / b)
  | Fin _, Inf _ => Fin 0
  | Inf s, Fin b => Inf (xorb s (Qsign_neg b))
  | Inf _, Inf _ => NaN
  end.

(** [x >= y]; every comparison with not-a-number is false. *)
Definition pf_geb (x y : pyfloat) : bool :=
  match x, y with
  | NaN, _ | _, NaN => false
  | Fin a, Fin b => Qle_bool b a
  | Inf s, Fin _ => negb s
  | Fin _, Inf t => t
  | Inf s, Inf t => orb (negb s) t
  end.

(** [x < y]. *)
Definition pf_ltb (x y : pyfloat) : bool :=
  match x, y with
  | NaN, _ | _, NaN => false
  | Fin a, Fin b => negb (Qle_bool b a)
  | Inf s, Fin _ => s
  | Fin _, Inf t => negb t
  | Inf s, Inf t => andb s (negb t)
  end.

(** ** Dictionaries with float keys

    Python dictionaries keep insertion order; assigning to a key that is
    present replaces the value in place.  Keys are compared as numbers. *)

Section Dict.
Context {V : Type}.

Fixpoint dict_get (d : list (Q * V)) (k : Q) : option V :=
  match d with
  | [] => None
  | (k', v) :: d' => if Qeq_bool k' k then Some v else dict_get d' k
  end.

Fixpoint dict_set (d : list (Q * V)) (k : Q) (v : V) : list (Q * V) :=
  match d with
  | [] => [(k, v)]
  | (k', v') :: d' =>
      if Qeq_bool k' k then (k', v) :: d' else (k', v') :: dict_set d' k v
  end.

Definition dict_getitem (d : list (Q * V)) (k : Q) : result V :=
  match dict_get d k with
  | Some v => Ok v
  | None => Raise KeyError
  end.

Definition dict_keys (d : list (Q * V)) : list Q := d.*1.
Definition dict_values (d : list (Q * V)) : list V := d.*2.
End Dict.

(** ** Peaks *)

Module Peak.
(** Modelled from the spec: [gc_tools/peak/ms_peak.py] is not among the
    sources.  The Peak Entity is a record of retention time, height,
    width, border times, area and mass spectrum, the spectrum a sequence
    of (m/z, intensity, relative intensity) triples.  The attributes that
    [analysis.py] reads and that later stages attach ([flag], [ri],
    [analyte]) are absent on a freshly built peak. *)
Record MS_Peak (Analyte : Type) : Type := Build_MS_Peak {
  rt : Q;
  height : Q;
  width : Q;
  boarders : Q * Q;
  mass_spectrum : list (Q * Q * pyfloat);
  area : Q;
  flag : option string;
  ri : option Q;
  analyte : option Analyte
}.
Arguments Build_MS_Peak {Analyte}.
Arguments rt {Analyte}.
Arguments height {Analyte}.
Arguments width {Analyte}.
Arguments boarders {Analyte}.
Arguments mass_spectrum {Analyte}.
Arguments area {Analyte}.
Arguments flag {Analyte}.
Arguments ri {Analyte}.
Arguments analyte {Analyte}.
End Peak.
Abbreviation MS_Peak := Peak.MS_Peak.

(** [MS_Peak(rt, height, width, boarders, mass_spectrum, area)] *)
Definition MS_Peak_init {Analyte} (rt height width : Q) (boarders : Q * Q)
    (mass_spectrum : list (Q * Q * pyfloat)) (area : Q) : MS_Peak Analyte :=
  Peak.Build_MS_Peak rt height width boarders mass_spectrum area None None None.

(** * peak_detection_ms.py *)

Module Peak_Detection_MS.

(** A chromatogram is a 2 x N array: row 0 the times, row 1 the
    intensities. *)
Definition chromatogram := list (Q * Q).
Definition chrom_time (c : chromatogram) : list Q := c.*1.
Definition chrom_intensities (c : chromatogram) : list Q := c.*2.

(** [a.argmin()]: the first index of the least element; raises on an empty
    array. *)
Fixpoint argmin_from (best_i : nat) (best_v : Q) (i : nat) (l : list Q) : nat :=
  match l with
  | [] => best_i
  | x :: l' =>
      if Qle_bool best_v x then argmin_from best_i best_v (S i) l'
      else argmin_from i x (S i) l'
  end.

Definition argmin (l : list Q) : result nat :=
  match l with
  | [] => Raise (ValueError "attempt to get argmin of an empty sequence")
  | x :: l' => Ok (argmin_from 0 x 1 l')
  end.

(** [(np.abs(time_values - b)).argmin()] *)
Definition nearest_index (time_values : list Q) (b : Q) : result nat :=
  argmin (map (fun t => Qabs (t - b)) time_values).

(** [y[start:stop]] for non-negative bounds. *)
Definition slice {A} (l : list A) (start stop : nat) : list A :=
  take (stop - start) (drop start l).

(** [scipy.integrate.simpson(y)] with the default unit spacing.
    [_basic_simpson] sums [y[i] + 4 y[i+1] + y[i+2]] over the panels
    [i = 0, 2, 4, ...] and scales by [dx / 3]. *)
Fixpoint simpson_panels (y : list Q) : Q :=
  match y with
  | y0 :: (y1 :: ((y2 :: _) as tl)) => (y0 + 4 * y1 + y2) + simpson_panels tl
  | _ => 0
  end.

Definition basic_simpson (y : list Q) : Q := simpson_panels y * (1 # 3).

(** An odd number of samples is integrated by [_basic_simpson]; two
    samples by the trapezoid; a larger even number by [_basic_simpson] on
    all but the last interval plus Cartwright's correction for the last
    one (scipy >= 1.11); no samples raise on [y[-1]]. *)
Definition simpson (y : list Q) : result Q :=
  let N := length y in
  if Nat.even N then
    match rev y with
    | [] => Raise IndexError
    | [_] => Ok (basic_simpson y)
    | [y_1; y_2] => Ok ((1 # 2) * (y_1 + y_2))
    | y_1 :: y_2 :: y_3 :: _ =>
        Ok (basic_simpson y + ((5 # 12) * y_1 + (2 # 3) * y_2 - (1 # 12) * y_3))
    end
  else Ok (basic_simpson y).

(** One iteration of the loop of [__calculate_areas]. *)
Definition peak_area (c : chromatogram) (boarder : Q * Q) : result Q :=
  let time_values := chrom_time c in
  start_idx ← nearest_index time_values boarder.1;
  end_idx ← nearest_index time_values boarder.2;
  simpson (slice (chrom_intensities c) start_idx end_idx).

Definition calculate_areas (c : chromatogram) (boarders : list (Q * Q))
  : result (list Q) :=
  mapM (peak_area c) boarders.

(** ** Collaborators

    [Analysis_Settings] is a one-shot store: [pop(key, default)] removes
    and returns the value of a key, or returns the default. *)
Record Analysis_Settings : Type := {
  store : list (string * Q);
  scan_rate : Q
}.

Fixpoint store_remove (st : list (string * Q)) (key : string) : list (string * Q) :=
  match st with
  | [] => []
  | (k, v) :: st' => if String.eqb k key then st' else (k, v) :: store_remove st' key
  end.

Fixpoint store_get (st : list (string * Q)) (key : string) : option Q :=
  match st with
  | [] => None
  | (k, v) :: st' => if String.eqb k key then Some v else store_get st' key
  end.

Definition pop (s : Analysis_Settings) (key : string) (default : Q)
  : Q * Analysis_Settings :=
  match store_get (store s) key with
  | Some v => (v, {| store := store_remove (store s) key; scan_rate := scan_rate s |})
  | None => (default, s)
  end.

(** The mass traces: a frame whose index holds the scan times in
    milliseconds and whose columns, labelled by m/z, hold the channel
    intensities. *)
Record Scans : Type := {
  scan_index : list Q;
  scan_columns : list (Q * list Q)
}.

(** The keyword arguments of [scipy.signal.find_peaks] that the module
    passes, and the properties it reads back. *)
Record find_peaks_args : Type := {
  fp_height : option Q;
  fp_prominence : option pyfloat;
  fp_width : option Q;
  fp_rel_height : option Q
}.

Record peak_properties : Type := {
  peak_heights : list Q;
  widths : list Q;
  left_ips : list Q;
  right_ips : list Q
}.

(** [np.min(a)] and [np.max(a)]: raise on an empty array. *)
Definition np_min (l : list Q) : result Q :=
  match l with
  | [] => Raise (ValueError "zero-size array to reduction operation minimum which has no identity")
  | x :: l' => Ok (foldl (fun m y => if Qle_bool m y then m else y) x l')
  end.

Definition np_max (l : list Q) : result Q :=
  match l with
  | [] => Raise (ValueError "zero-size array to reduction operation maximum which has no identity")
  | x :: l' => Ok (foldl (fun m y => if Qle_bool y m then m else y) x l')
  end.

(** [np.median(a)] through a sorted copy. *)
Fixpoint insert_sorted (x : Q) (l : list Q) : list Q :=
  match l with
  | [] => [x]
  | y :: l' => if Qle_bool x y then x :: l else y :: insert_sorted x l'
  end.

Definition sort_Q (l : list Q) : list Q := foldr insert_sorted [] l.

Definition np_median (l : list Q) : pyfloat :=
  let s := sort_Q l in
  let n := length s in
  match n with
  | O => NaN
  | _ =>
      if Nat.even n then
        Fin ((nth (n / 2 - 1) s 0 + nth (n / 2) s 0) / 2)
      else Fin (nth (n / 2) s 0)
  end.

(** [np.vstack((a, b)).transpose()]: the rows must have one length. *)
Definition vstack_T (a b : list Q) : result (list (Q * Q)) :=
  if Nat.eqb (length a) (length b) then Ok (zip a b)
  else Raise (ValueError "all the input array dimensions must match exactly").

(** [round(x, 3)]: to the nearest multiple of 1/1000, ties to even. *)
Definition round_half_even (x : Q) : Z :=
  let f := Qfloor x in
  let r := x - inject_Z f in
  if Qle_bool r (1 # 2) then
    (if Qeq_bool r (1 # 2) then (if Z.even f then f else f + 1)%Z else f)
  else (f + 1)%Z.

Definition round3 (x : Q) : Q := Qred (inject_Z (round_half_even (x * 1000)) / 1000).

Section WithLibraries.
Context {Analyte : Type}.

(** [scipy.signal.find_peaks]: the indices of the peaks of a signal and
    their properties. *)
Variable find_peaks : list Q -> find_peaks_args -> list nat * peak_properties.

(** [Utilities.check_interval(index, peak_index, tolerance)]: the window
    test of [gc_tools/utilities.py], which is not among the sources. *)
Variable check_interval : nat -> nat -> nat -> bool.

(** [__detect_peaks_scipy]; the default of a [pop] is evaluated before the
    call, so a signal without a positive sample raises. *)
Definition detect_peaks_scipy (c : chromatogram) (s : Analysis_Settings)
  : result (list nat * list Q * list Q * list Q * list (Q * Q) * list Q
            * Analysis_Settings) :=
  let time := chrom_time c in
  let intensities := chrom_intensities c in
  least ← np_min (filter (fun y => negb (Qle_bool y 0) = true) intensities);
  let '(min_height, s) := pop s "height" (least * 50) in
  let '(prominence, s) := pop s "prominence_ms" 1 in
  let prominence := pf_mul (np_median intensities) (Fin prominence) in
  let '(width, s) := pop s "width" 0 in
  let '(peak_indices, peak_properties) :=
    find_peaks intensities
      {| fp_height := Some min_height; fp_prominence := Some prominence;
         fp_width := Some width; fp_rel_height := Some 1 |} in
  let peak_heights := peak_heights peak_properties in
  let peak_widths := map (fun w => w * scan_rate s) (widths peak_properties) in
  ips ← vstack_T (left_ips peak_properties) (right_ips peak_properties);
  t0 ← index_get time 0;
  let peak_boarders :=
    map (fun b : Q * Q => (b.1 * scan_rate s + t0, b.2 * scan_rate s + t0)) ips in
  peak_areas ← calculate_areas c peak_boarders;
  peak_rts ← mapM (index_get time) peak_indices;
  Ok (peak_indices, peak_rts, peak_heights, peak_widths, peak_boarders,
      peak_areas, s).

(** The innermost statement of [__extract_mass_spectrum]:
    [mass_spectrums[rts[peak_index]].update({mass_trace: chromatogram[peak_index]})]. *)
Definition record_channel (rts : list Q) (mass_trace : Q) (channel : list Q)
    (peak_index : nat) (mass_spectrums : list (Q * list (Q * Q)))
  : result (list (Q * list (Q * Q))) :=
  key ← index_get rts peak_index;
  spectrum ← dict_getitem mass_spectrums key;
  v ← index_get channel peak_index;
  Ok (dict_set mass_spectrums key (dict_set spectrum mass_trace v)).

Definition extract_trace (rts : list Q) (prominence : Q) (peak_indices : list nat)
    (mass_spectrums : list (Q * list (Q * Q))) (column : Q * list Q)
  : result (list (Q * list (Q * Q))) :=
  let '(mass_trace, channel) := column in
  let '(indices, _) :=
    find_peaks channel
      {| fp_height := None; fp_prominence := Some (Fin prominence);
         fp_width := None; fp_rel_height := None |} in
  foldM (fun ms peak_index =>
           foldM (fun ms index =>
                    if check_interval index peak_index 5
                    then record_channel rts mass_trace channel peak_index ms
                    else Ok ms)
                 ms indices)
        mass_spectrums peak_indices.

(** [__extract_mass_spectrum] *)
Definition extract_mass_spectrum (scans : Scans) (peak_rts : list Q)
    (peak_indices : list nat) (s : Analysis_Settings)
  : result (list (Q * list (Q * Q)) * Analysis_Settings) :=
  let '(prominence, s) := pop s "trace_prominence" 220 in
  let mass_spectrums := foldl (fun ms i => dict_set ms i []) [] peak_rts in
  let rts := map (fun t => t / 60000) (scan_index scans) in
  ms ← foldM (extract_trace rts prominence peak_indices) mass_spectrums
             (scan_columns scans);
  Ok (ms, s).

(** One iteration of the loop of [__initialize_peaks]. *)
Definition initialize_peak (peak_heights peak_widths : list Q)
    (peak_boarders : list (Q * Q)) (mass_spectra : list (Q * list (Q * Q)))
    (peak_areas : list Q) (peaks : list (Q * MS_Peak Analyte)) (irt : nat * Q)
  : result (list (Q * MS_Peak Analyte)) :=
  let '(i, rt_i) := irt in
  let rt_min := round3 rt_i in
  area ← index_get peak_areas i;
  spectrum ← dict_getitem mass_spectra rt_i;
  let intensities := dict_values spectrum in
  top ← np_max intensities;
  let rel_intensities :=
    map (fun y => pf_mul (pf_div (Fin y) (Fin top)) (Fin 100)) intensities in
  let l := zip (zip (dict_keys spectrum) intensities) rel_intensities in
  h ← index_get peak_heights i;
  w ← index_get peak_widths i;
  b ← index_get peak_boarders i;
  let peak : MS_Peak Analyte := MS_Peak_init rt_min h w b l area in
  Ok (dict_set peaks (Peak.rt peak) peak).

(** [__initialize_peaks] *)
Definition initialize_peaks (peak_rts peak_heights peak_widths : list Q)
    (peak_boarders : list (Q * Q)) (mass_spectra : list (Q * list (Q * Q)))
    (peak_areas : list Q) : result (list (Q * MS_Peak Analyte)) :=
  foldM (initialize_peak peak_heights peak_widths peak_boarders mass_spectra peak_areas)
        [] (imap (fun i rt => (i, rt)) peak_rts).

(** [pick_peaks] *)
Definition pick_peaks (c : chromatogram) (scans : Scans) (s : Analysis_Settings)
  : result (list (Q * MS_Peak Analyte)) :=
  '(peak_indices, peak_rts, peak_heights, peak_widths, peak_boarders, peak_areas, s)
    ← detect_peaks_scipy c s;
  '(spectra, s) ← extract_mass_spectrum scans peak_rts peak_indices s;
  initialize_peaks peak_rts peak_heights peak_widths peak_boarders spectra peak_areas.

End WithLibraries.

End Peak_Detection_MS.

(** * analysis.py *)

Module Analysis.

(** ** Collaborators

    The sequences, injections and layouts of [gc_tools/sequence.py] and
    [reaction.py] enter through the operations the spec lists for them. *)

Record FID_Peak : Type := { fid_rt : Q }.

Record MS_Injection (Analyte : Type) : Type := {
  sample_name : string;
  get_plate_position : string;
  match_mol : Analyte -> option (MS_Peak Analyte);
  peaks : list (Q * MS_Peak Analyte)
}.
Arguments sample_name {Analyte}.
Arguments get_plate_position {Analyte}.
Arguments match_mol {Analyte}.
Arguments peaks {Analyte}.

Record FID_Injection (Analyte : Type) : Type := {
  match_ri : option Q -> option Analyte -> option FID_Peak;
  quantify : Q -> pyfloat
}.
Arguments match_ri {Analyte}.
Arguments quantify {Analyte}.

Record Layout (Analyte : Type) : Type := {
  get_product : string -> Analyte;
  get_substrate : string -> Z -> Analyte;
  shape : nat * nat
}.
Arguments get_product {Analyte}.
Arguments get_substrate {Analyte}.
Arguments shape {Analyte}.

(** ** Well results *)

Inductive quantity : Type :=
| Percentage (x : pyfloat)
| Class (label : string).

Inductive analyte_label (Analyte : Type) : Type :=
| Label_analyte (a : Analyte)
| Label_str (s : string).
Arguments Label_analyte {Analyte} a.
Arguments Label_str {Analyte} s.

(** The four-element list stored per well. *)
Definition well_result (Analyte : Type) : Type :=
  (quantity * pyfloat * pyfloat * analyte_label Analyte)%type.

(** [[np.nan, np.nan, np.nan, '']] *)
Definition nan_result {Analyte} : well_result Analyte :=
  (Percentage NaN, NaN, NaN, Label_str "").

(** What the module prints. *)
Inductive diagnostic : Type :=
| No_standard_found (sample : string)
| Report_line (sample : string) (product_ratio : pyfloat) (rt_ms : Q) (mz : Q).

(** [100 - yield_] *)
Definition complement (yield_ : quantity) : result quantity :=
  match yield_ with
  | Percentage x => Ok (Percentage (pf_sub (Fin 100) x))
  | Class _ => Raise TypeError
  end.

(** [getattr(peak, name)] for the numeric attributes of a peak. *)
Definition getattr_num {Analyte} (peak : MS_Peak Analyte) (name : string) : result Q :=
  if String.eqb name "area" then Ok (Peak.area peak)
  else if String.eqb name "height" then Ok (Peak.height peak)
  else if String.eqb name "width" then Ok (Peak.width peak)
  else if String.eqb name "rt" then Ok (Peak.rt peak)
  else Raise (AttributeError name).

(** The classification cascade of [__ms_quantify]; when no test succeeds
    (a not-a-number ratio) [yield_] keeps its earlier binding. *)
Definition classify (product_ratio : pyfloat) (yield_ : option quantity)
  : option quantity :=
  if pf_geb product_ratio (Fin 70) then Some (Class "excellent")
  else if pf_geb product_ratio (Fin 50) then Some (Class "good")
  else if pf_geb product_ratio (Fin 20) then Some (Class "fair")
  else if pf_geb product_ratio (Fin 5) then Some (Class "poor")
  else if pf_ltb product_ratio (Fin 5) then Some (Class "trace")
  else yield_.

(** Reading a local variable that may not have been assigned yet. *)
Definition read_local {A} (name : string) (v : option A) : result A :=
  match v with
  | Some a => Ok a
  | None => Raise (UnboundLocalError name)
  end.

(** An FID injection as [quantify_analyte] reads it: the operations above
    together with [flag_peak(rt, analyte)], [plate_pos] and
    [sample_name]. *)
Record FID_Entry (Analyte : Type) : Type := {
  fid_injection : FID_Injection Analyte;
  flag_peak : Q -> option Analyte -> option FID_Peak;
  plate_pos : option string;
  fid_sample_name : string
}.
Arguments fid_injection {Analyte}.
Arguments flag_peak {Analyte}.
Arguments plate_pos {Analyte}.
Arguments fid_sample_name {Analyte}.

(** Code that prints: the lines printed so far survive an exception. *)
Definition run (A : Type) : Type := (list diagnostic * result A)%type.

#[global] Instance run_ret : MRet run := fun _ a => ([], Ok a).
#[global] Instance run_bind : MBind run := fun _ _ f m =>
  match m with
  | (out, Ok a) => let '(out', r) := f a in (out ++ out', r)
  | (out, Raise e) => (out, Raise e)
  end.

Definition print (d : diagnostic) : run unit := ([d], Ok tt).
Definition lift {A} (r : result A) : run A := ([], r).
Definition raise {A} (e : exn) : run A := ([], Raise e).

Fixpoint foldM_run {A S} (f : S -> A -> run S) (s : S) (l : list A) : run S :=
  match l with
  | [] => mret s
  | a :: l' => s' ← f s a; foldM_run f s' l'
  end.

Section WithAnalyte.
Context {Analyte : Type}.

(** [analyte.mz] *)
Variable mz : Analyte -> Q.

Abbreviation results_dict := (gmap string (well_result Analyte)).

(** *** Cross-modality quantification *)

(** The body of the loop of [__match_and_quantify].  The local [analyte]
    outlives an iteration, so it is part of the loop state. *)
Definition match_and_quantify_step (fid_sequence : gmap string (FID_Injection Analyte))
    (layout : Layout Analyte) (mode : string) (index : Z)
    (st : option Analyte * results_dict)
    (item : string * MS_Injection Analyte)
  : result (option Analyte * results_dict) :=
  let '(analyte, results) := st in
  let '(name, ms_injection) := item in
  fid_injection ← match fid_sequence !! name with
                  | Some f => Ok f
                  | None => Raise KeyError
                  end;
  let pos := get_plate_position ms_injection in
  let analyte :=
    if String.eqb mode "yield"
    then Some (get_product layout (get_plate_position ms_injection))
    else analyte in
  let analyte :=
    if String.eqb mode "conv" then Some (get_substrate layout pos index)
    else analyte in
  a ← read_local "analyte" analyte;
  match match_mol ms_injection a with
  | Some mz_match =>
      match match_ri fid_injection (Peak.ri mz_match) (Peak.analyte mz_match) with
      | Some ri_match =>
          let yield_ := quantify fid_injection (fid_rt ri_match) in
          let yield_ :=
            if String.eqb mode "conv" then pf_sub (Fin 100) yield_ else yield_ in
          Ok (analyte,
              <[pos := (Percentage yield_, Fin (Peak.rt mz_match), Fin (fid_rt ri_match),
                        Label_analyte a)]> results)
      | None => Ok (analyte, <[pos := nan_result]> results)
      end
  | None => Ok (analyte, <[pos := nan_result]> results)
  end.

(** [__match_and_quantify] *)
Definition match_and_quantify (ms_sequence : list (string * MS_Injection Analyte))
    (fid_sequence : gmap string (FID_Injection Analyte)) (layout : Layout Analyte)
    (mode : string) (index : Z) : result results_dict :=
  st ← foldM (match_and_quantify_step fid_sequence layout mode index)
             (None, ∅) ms_sequence;
  Ok st.2.

(** *** MS-only quantification *)

(** The first peak flagged as the standard:
    [hasattr(peak, 'flag') and peak.flag == 'standard']. *)
Definition is_standard (peak : MS_Peak Analyte) : bool :=
  match Peak.flag peak with
  | Some f => String.eqb f "standard"
  | None => false
  end.

Definition find_standard (ps : list (MS_Peak Analyte)) : option (MS_Peak Analyte) :=
  List.find is_standard ps.

(** [sum(getattr(peak, name) for peak in ps)] *)
Definition sum_attr (name : string) (ps : list (MS_Peak Analyte)) : result Q :=
  foldM (fun acc peak => v ← getattr_num peak name; Ok (acc + v)) 0 ps.

(** The locals of [__ms_quantify] that outlive an iteration, and the
    dictionary under construction. *)
Record ms_state : Type := {
  product_ratio : option pyfloat;
  yield_ : option quantity;
  results : results_dict
}.

(** The body of the loop of [__ms_quantify]. *)
Definition ms_quantify_step (layout : Layout Analyte)
    (mode ms_quantification_mode relative_to : string) (index : Z)
    (st : ms_state) (item : string * MS_Injection Analyte) : run ms_state :=
  let ms_injection := item.2 in
  let pos := get_plate_position ms_injection in
  analyte ←
    (if String.eqb mode "yield"
     then mret (get_product layout (get_plate_position ms_injection))
     else if String.eqb mode "conv" then mret (get_substrate layout pos index)
     else raise (ValueError "Mode must be either yield or conv"));
  match match_mol ms_injection analyte with
  | Some mz_match =>
      product_ratio ←
        (if String.eqb relative_to "all" then
           total_area_or_height ←
             lift (sum_attr ms_quantification_mode (dict_values (peaks ms_injection)));
           product_area_or_height ← lift (getattr_num mz_match ms_quantification_mode);
           mret (Some (pf_mul (pf_div (Fin product_area_or_height)
                                      (Fin total_area_or_height)) (Fin 100)))
         else if String.eqb relative_to "standard" then
           match find_standard (dict_values (peaks ms_injection)) with
           | Some peak =>
               standard_area_or_height ← lift (getattr_num peak ms_quantification_mode);
               product_area_or_height ← lift (getattr_num mz_match ms_quantification_mode);
               mret (Some (pf_mul (pf_div (Fin product_area_or_height)
                                          (Fin standard_area_or_height)) (Fin 100)))
           | None =>
               print (No_standard_found (sample_name ms_injection));;
               mret (product_ratio st)
           end
         else mret (product_ratio st));
      r ← lift (read_local "product_ratio" product_ratio);
      let yield_ := classify r (yield_ st) in
      yield_ ←
        (if String.eqb mode "conv" then
           y ← lift (read_local "yield_" yield_);
           y ← lift (complement y);
           mret (Some y)
         else mret yield_);
      y ← lift (read_local "yield_" yield_);
      let results :=
        <[pos := (y, Fin (Peak.rt mz_match), NaN, Label_analyte analyte)]> (results st) in
      a ← lift (match Peak.analyte mz_match with
                | Some a => Ok a
                | None => Raise (AttributeError "mz")
                end);
      print (Report_line (sample_name ms_injection) r (Peak.rt mz_match) (mz a));;
      mret {| product_ratio := product_ratio; yield_ := yield_; results := results |}
  | None =>
      mret {| product_ratio := product_ratio st; yield_ := yield_ st;
              results := <[pos := nan_result]> (results st) |}
  end.

(** [__ms_quantify] *)
Definition ms_quantify (ms_sequence : list (string * MS_Injection Analyte))
    (layout : Layout Analyte) (mode ms_quantification_mode relative_to : string)
    (index : Z) : run results_dict :=
  st ← foldM_run (ms_quantify_step layout mode ms_quantification_mode relative_to index)
                 {| product_ratio := None; yield_ := None; results := ∅ |} ms_sequence;
  mret (results st).

(** *** Plate grids

    The frame and array conversions of pandas and numpy and the CSV sink
    are collaborators: [assemble rows columns dtype d] stands for filling
    an empty frame with the rows and columns given from the dictionary and
    converting it to a structured array whose [quantity] field has the
    type [dtype]. *)
Variable Grid : Type.
Variable assemble : list string -> list string -> string -> results_dict -> result Grid.

Record report : Type := {
  report_path : string;
  report_columns : list string;
  report_rows : results_dict
}.

(** [if path:] holds for a non-empty string. *)
Definition write_report (path : option string) (quantity : string)
    (d : results_dict) : option report :=
  match path with
  | Some p =>
      if String.eqb p "" then None
      else Some {| report_path := p;
                   report_columns := [quantity; "RT-MS [min]"; "RT-FID [min]"; "Analyte"];
                   report_rows := d |}
  | None => None
  end.

(** [__match_and_quantify_plate] *)
Definition match_and_quantify_plate (ms_sequence : list (string * MS_Injection Analyte))
    (fid_sequence : gmap string (FID_Injection Analyte)) (layout : Layout Analyte)
    (path : option string) (mode : string) (index : Z)
  : result (Grid * option report) :=
  d ← match_and_quantify ms_sequence fid_sequence layout mode index;
  results_array ←
    assemble ["A"; "B"; "C"; "D"; "E"; "F"; "G"; "H"]
             ["1"; "2"; "3"; "4"; "5"; "6"; "7"; "8"; "9"; "10"; "11"; "12"]
             "float" d;
  let quantity := if String.eqb mode "yield" then "Yield [%]" else "Conversion [%]" in
  Ok (results_array, write_report path quantity d).

(** [calc_plate_yield] *)
Definition calc_plate_yield ms_sequence fid_sequence layout (path : option string) :=
  match_and_quantify_plate ms_sequence fid_sequence layout path "yield" 0.

(** [calc_plate_conv] *)
Definition calc_plate_conv ms_sequence fid_sequence layout (path : option string)
    (index : Z) :=
  match_and_quantify_plate ms_sequence fid_sequence layout path "conv" index.

(** [chr(i)] and [str(i)] *)
Definition chr (i : nat) : string := String (Ascii.ascii_of_nat i) EmptyString.
Definition str (i : nat) : string := pretty i.

(** [__ms_only_quantify_plate] *)
Definition ms_only_quantify_plate (ms_sequence : list (string * MS_Injection Analyte))
    (layout : Layout Analyte) (path : option string) (mode : string) (index : Z)
    (ms_quantification_mode relative_to : string)
  : run (Grid * option report) :=
  let rows := map chr (seq 65 (shape layout).1) in
  let columns := map str (seq 1 (shape layout).2) in
  d ← ms_quantify ms_sequence layout mode ms_quantification_mode relative_to index;
  results_array ← lift (assemble rows columns "U20" d);
  let quantity :=
    if String.eqb mode "yield" then "MS Yield Estimate" else "MS Conversion Estimate" in
  mret (results_array, write_report path quantity d).

(** [calc_plate_ms_only_yield] *)
Definition calc_plate_ms_only_yield ms_sequence layout (path : option string) :=
  ms_only_quantify_plate ms_sequence layout path "yield" 0 "area" "standard".

(** *** Quantification at a retention time *)

(** [if injection.plate_pos:] holds for a non-empty string. *)
Definition yield_key (injection : FID_Entry Analyte) : string :=
  match plate_pos injection with
  | Some p => if String.eqb p "" then fid_sample_name injection else p
  | None => fid_sample_name injection
  end.

(** The body of the loop of [quantify_analyte]. *)
Definition quantify_analyte_step (rt : Q) (analyte : option Analyte)
    (yield_dict : gmap string pyfloat) (injection : FID_Entry Analyte)
  : gmap string pyfloat :=
  let peak := flag_peak injection rt analyte in
  let yield_ :=
    match peak with
    | Some peak => quantify (fid_injection injection) (fid_rt peak)
    | None => Fin 0
    end in
  <[yield_key injection := yield_]> yield_dict.

(** [quantify_analyte] *)
Definition quantify_analyte (fid_injections : list (FID_Entry Analyte)) (rt : Q)
    (analyte : option Analyte) : gmap string pyfloat :=
  foldl (quantify_analyte_step rt analyte) ∅ fid_injections.

End WithAnalyte.

End Analysis.

(** * Vocabulary of the properties *)

(** The intensity stored for a channel in the spectrum under a key. *)
Definition spectrum_entry (ms : list (Q * list (Q * Q))) (key mass_trace : Q) : option Q :=
  dict_get ms key ≫= fun spectrum => dict_get spectrum mass_trace.

(** The spectrum of the primary peak at [peak_index] holds, for the
    channel, the channel's intensity at the primary peak's index. *)
Definition aligned (rts : list Q) (mass_trace : Q) (channel : list Q) (peak_index : nat)
    (ms : list (Q * list (Q * Q))) : Prop :=
  exists key v,
    rts !! peak_index = Some key /\ channel !! peak_index = Some v /\
    spectrum_entry ms key mass_trace = Some v.

(** [i] is the first index at which [l] is least. *)
Definition first_least (l : list Q) (i : nat) : Prop :=
  exists m, l !! i = Some m /\
    forall j x, l !! j = Some x -> m <= x /\ ((j < i)%nat -> m < x).

(** [i] is the index of the sample of [time_values] nearest to [b], the
    first one on a tie. *)
Definition nearest_sample (time_values : list Q) (b : Q) (i : nat) : Prop :=
  exists t, time_values !! i = Some t /\
    forall j t', time_values !! j = Some t' ->
      Qabs (t - b) <= Qabs (t' - b) /\ ((j < i)%nat -> Qabs (t - b) < Qabs (t' - b)).




(** No two keys of a dictionary are equal as numbers. *)
Fixpoint dict_wf {V} (d : list (Q * V)) : Prop :=
  match d with
  | [] => True
  | (k, _) :: d' => dict_get d' k = None /\ dict_wf d'
  end.

(** The peak was built from the [i]-th detected peak. *)
Definition built_at {Analyte} (peak_rts peak_heights peak_widths : list Q)
    (peak_boarders : list (Q * Q)) (peak_areas : list Q)
    (i : nat) (p : MS_Peak Analyte) : Prop :=
  exists rt_i,
    peak_rts !! i = Some rt_i /\
    Peak.rt p = Peak_Detection_MS.round3 rt_i /\
    peak_heights !! i = Some (Peak.height p) /\
    peak_widths !! i = Some (Peak.width p) /\
    peak_boarders !! i = Some (Peak.boarders p) /\
    peak_areas !! i = Some (Peak.area p).

(** Every entry of the dictionary is keyed by the rounded retention time
    of its peak, and the peak was built from a detected peak. *)
Definition keyed_by_rt {Analyte} (peak_rts peak_heights peak_widths : list Q)
    (peak_boarders : list (Q * Q)) (peak_areas : list Q)
    (peaks : list (Q * MS_Peak Analyte)) : Prop :=
  forall k p, (k, p) ∈ peaks ->
    k = Peak.rt p /\
    exists i, built_at peak_rts peak_heights peak_widths peak_boarders peak_areas i p.



(** The loop body of MS-only quantification for yield, by area, relative
    to the standard: no mode test, no complement, no sum over all peaks,
    no reading of heights. *)
Definition yield_area_standard_step {Analyte} (mz : Analyte -> Q)
    (layout : Analysis.Layout Analyte)
    (st : Analysis.ms_state) (item : string * Analysis.MS_Injection Analyte)
  : Analysis.run (Analysis.ms_state (Analyte := Analyte)) :=
  let ms_injection := item.2 in
  let pos := Analysis.get_plate_position ms_injection in
  let analyte := Analysis.get_product layout pos in
  match Analysis.match_mol ms_injection analyte with
  | Some mz_match =>
      product_ratio ←
        match Analysis.find_standard (dict_values (Analysis.peaks ms_injection)) with
        | Some peak =>
            mret (Some (pf_mul (pf_div (Fin (Peak.area mz_match)) (Fin (Peak.area peak)))
                               (Fin 100)))
        | None =>
            Analysis.print (Analysis.No_standard_found (Analysis.sample_name ms_injection));;
            mret (Analysis.product_ratio st)
        end;
      r ← Analysis.lift (Analysis.read_local "product_ratio" product_ratio);
      let yield_ := Analysis.classify r (Analysis.yield_ st) in
      y ← Analysis.lift (Analysis.read_local "yield_" yield_);
      a ← Analysis.lift (match Peak.analyte mz_match with
                         | Some a => Ok a
                         | None => Raise (AttributeError "mz")
                         end);
      Analysis.print (Analysis.Report_line (Analysis.sample_name ms_injection) r
                        (Peak.rt mz_match) (mz a));;
      mret {| Analysis.product_ratio := product_ratio; Analysis.yield_ := yield_;
              Analysis.results :=
                <[pos := (y, Fin (Peak.rt mz_match), NaN, Analysis.Label_analyte analyte)]>
                  (Analysis.results st) |}
  | None =>
      mret {| Analysis.product_ratio := Analysis.product_ratio st;
              Analysis.yield_ := Analysis.yield_ st;
              Analysis.results := <[pos := Analysis.nan_result]> (Analysis.results st) |}
  end.

(** [__ms_only_quantify_plate] with that loop body and the yield header. *)
Definition plate_yield_area_standard {Analyte} (mz : Analyte -> Q) (Grid : Type)
    (assemble : list string -> list string -> string ->
                gmap string (Analysis.well_result Analyte) -> result Grid)
    (ms_sequence : list (string * Analysis.MS_Injection Analyte))
    (layout : Analysis.Layout Analyte) (path : option string)
  : Analysis.run (Grid * option (Analysis.report (Analyte := Analyte))) :=
  let rows := map Analysis.chr (seq 65 (Analysis.shape layout).1) in
  let columns := map Analysis.str (seq 1 (Analysis.shape layout).2) in
  st ← Analysis.foldM_run (yield_area_standard_step mz layout)
         {| Analysis.product_ratio := None; Analysis.yield_ := None;
            Analysis.results := ∅ |} ms_sequence;
  let d := Analysis.results st in
  results_array ← Analysis.lift (assemble rows columns "U20" d);
  mret (results_array, Analysis.write_report path "MS Yield Estimate" d).

(** * Worked inputs *)

(** A chromatogram on which a wider peak has the smaller area: a single
    spike of height 3 among zeros. *)
Definition spike_chromatogram : Peak_Detection_MS.chromatogram :=
  [(0, 0); (1, 0); (2, 0); (3, 3); (4, 0); (5, 0); (6, 0)].

(** A chromatogram for widening by whole panels. *)
Definition panel_chromatogram : Peak_Detection_MS.chromatogram :=
  [(0, 0); (1, 1); (2, 0); (3, 0); (4, 3); (5, 0); (6, 0); (7, 1); (8, 0)].

(** A [find_peaks] that detects nothing. *)
Definition no_peaks (y : list Q) (args : Peak_Detection_MS.find_peaks_args)
  : list nat * Peak_Detection_MS.peak_properties :=
  ([], {| Peak_Detection_MS.peak_heights := []; Peak_Detection_MS.widths := [];
          Peak_Detection_MS.left_ips := []; Peak_Detection_MS.right_ips := [] |}).

(** Modelled from the spec: [Utilities.check_interval] of
    [gc_tools/utilities.py] is not among the sources; a channel peak is
    attributed to a primary peak "whose index lies within a small fixed
    tolerance window (default ±5 samples)". *)
Definition check_interval_spec (index peak_index tolerance : nat) : bool :=
  (peak_index - tolerance <=? index)%nat && (index <=? peak_index + tolerance)%nat.

(** Three scans of one channel that stays at zero. *)
Definition quiet_scans : Peak_Detection_MS.Scans :=
  {| Peak_Detection_MS.scan_index := [0; 60000; 120000];
     Peak_Detection_MS.scan_columns := [(50, [0; 0; 0])] |}.

Definition no_settings : Peak_Detection_MS.Analysis_Settings :=
  {| Peak_Detection_MS.store := []; Peak_Detection_MS.scan_rate := 1 |}.

(** Two primary peaks, at indices 2 and 3, whose retention times both
    round to 1.000; every channel has its own peak at index 2. *)
Definition example_chromatogram : Peak_Detection_MS.chromatogram :=
  [(0, 1); (1 # 2, 2); (10001 # 10000, 9); (10004 # 10000, 8); (3 # 2, 2); (2, 1);
   (5 # 2, 1)].

Definition example_scans : Peak_Detection_MS.Scans :=
  {| Peak_Detection_MS.scan_index := [0; 30000; 60006; 60024; 90000; 120000; 150000];
     Peak_Detection_MS.scan_columns :=
       [(50, [0; 1; 5; 4; 1; 0; 0]); (77, [0; 0; 3; 2; 0; 0; 0])] |}.

Definition example_settings : Peak_Detection_MS.Analysis_Settings :=
  {| Peak_Detection_MS.store := [("width"%string, 0)]; Peak_Detection_MS.scan_rate := 1 |}.

Definition example_find_peaks (y : list Q) (args : Peak_Detection_MS.find_peaks_args)
  : list nat * Peak_Detection_MS.peak_properties :=
  match Peak_Detection_MS.fp_height args with
  | Some _ =>
      ([2; 3]%nat,
       {| Peak_Detection_MS.peak_heights := [9; 8];
          Peak_Detection_MS.widths := [2; 2];
          Peak_Detection_MS.left_ips := [1 # 2; 0];
          Peak_Detection_MS.right_ips := [2; 2] |})
  | None =>
      ([2]%nat,
       {| Peak_Detection_MS.peak_heights := []; Peak_Detection_MS.widths := [];
          Peak_Detection_MS.left_ips := []; Peak_Detection_MS.right_ips := [] |})
  end.

Definition example_spectra : list (Q * list (Q * Q)) :=
  Eval vm_compute in
    match Peak_Detection_MS.extract_mass_spectrum example_find_peaks check_interval_spec
            example_scans [10001 # 10000; 10004 # 10000] [2; 3]%nat example_settings with
    | Ok (ms, _) => ms
    | Raise _ => []
    end.

Definition example_peaks : list (Q * MS_Peak unit) :=
  Eval vm_compute in
    match Peak_Detection_MS.pick_peaks example_find_peaks check_interval_spec
            example_chromatogram example_scans example_settings with
    | Ok peaks => peaks
    | Raise _ => []
    end.

Definition example_peak : MS_Peak unit :=
  Eval vm_compute in
    match example_peaks with
    | (_, p) :: _ => p
    | [] => MS_Peak_init 0 0 0 (0, 0) [] 0
    end.

(** A plate with analytes named by strings.  The injection of well A1
    holds the product peak and no peak flagged as the standard.  The
    injection of well A2 holds a standard and matches product and
    substrate alike.  The injection of well A3 matches nothing. *)
Definition product_peak : MS_Peak string :=
  Peak.Build_MS_Peak 5 100 1 (4, 6) [] 250 None (Some 1200) (Some "product"%string).

Definition standard_peak : MS_Peak string :=
  Peak.Build_MS_Peak 3 80 1 (2, 4) [] 500 (Some "standard"%string) None
    (Some "dodecane"%string).

Definition injection_A1 : Analysis.MS_Injection string :=
  {| Analysis.sample_name := "s1";
     Analysis.get_plate_position := "A1";
     Analysis.match_mol := fun a => if String.eqb a "product" then Some product_peak else None;
     Analysis.peaks := [(5, product_peak)] |}.

Definition injection_A2 : Analysis.MS_Injection string :=
  {| Analysis.sample_name := "s2";
     Analysis.get_plate_position := "A2";
     Analysis.match_mol := fun _ => Some product_peak;
     Analysis.peaks := [(3, standard_peak); (5, product_peak)] |}.

Definition injection_A3 : Analysis.MS_Injection string :=
  {| Analysis.sample_name := "s3";
     Analysis.get_plate_position := "A3";
     Analysis.match_mol := fun _ => None;
     Analysis.peaks := [(3, standard_peak)] |}.

Definition example_fid_injection : Analysis.FID_Injection string :=
  {| Analysis.match_ri := fun _ _ => Some {| Analysis.fid_rt := 7 |};
     Analysis.quantify := fun _ => Fin (165 # 2) |}.

Definition example_fid_sequence : gmap string (Analysis.FID_Injection string) :=
  <["s1"%string := example_fid_injection]>
    (<["s2"%string := example_fid_injection]>
       (<["s3"%string := example_fid_injection]> ∅)).

Definition example_layout : Analysis.Layout string :=
  {| Analysis.get_product := fun _ => "product"%string;
     Analysis.get_substrate := fun _ _ => "substrate"%string;
     Analysis.shape := (1, 3)%nat |}.

Definition example_mz (a : string) : Q := 154.

Definition example_ms_sequence : list (string * Analysis.MS_Injection string) :=
  [("s2"%string, injection_A2); ("s1"%string, injection_A1)].

Definition example_ms_sequence' : list (string * Analysis.MS_Injection string) :=
  [("s2"%string, injection_A2); ("s3"%string, injection_A3)].


(** The time axis grows strictly from sample to sample. *)
Definition strictly_increasing (time_values : list Q) : Prop :=
  forall i j ti tj, (i < j)%nat ->
    time_values !! i = Some ti -> time_values !! j = Some tj -> ti < tj.

(** The chromatogram with every intensity multiplied by [k]. *)
Definition scale_intensities (k : Q) (c : Peak_Detection_MS.chromatogram)
  : Peak_Detection_MS.chromatogram :=
  map (fun p : Q * Q => (p.1, k * p.2)) c.

(** What [__initialize_peaks] needs of the [i]-th detected peak: an entry
    in every array and a non-empty spectrum under its retention time. *)
Definition constructible (peak_heights peak_widths : list Q)
    (peak_boarders : list (Q * Q)) (mass_spectra : list (Q * list (Q * Q)))
    (peak_areas : list Q) (i : nat) (rt_i : Q) : Prop :=
  (i < length peak_areas)%nat /\
  (exists spectrum, dict_get mass_spectra rt_i = Some spectrum /\ spectrum <> []) /\
  (i < length peak_heights)%nat /\
  (i < length peak_widths)%nat /\
  (i < length peak_boarders)%nat.

(** Some channel has a peak inside the window of a primary peak that lies
    at the time [key]. *)
Definition contributes
    (find_peaks : list Q -> Peak_Detection_MS.find_peaks_args ->
                  list nat * Peak_Detection_MS.peak_properties)
    (check_interval : nat -> nat -> nat -> bool) (prominence : Q)
    (columns : list (Q * list Q)) (rts : list Q) (peak_indices : list nat)
    (key : Q) : Prop :=
  exists mass_trace channel index peak_index k,
    (mass_trace, channel) ∈ columns /\
    index ∈ (find_peaks channel
               {| Peak_Detection_MS.fp_height := None;
                  Peak_Detection_MS.fp_prominence := Some (Fin prominence);
                  Peak_Detection_MS.fp_width := None;
                  Peak_Detection_MS.fp_rel_height := None |}).1 /\
    peak_index ∈ peak_indices /\
    check_interval index peak_index 5%nat = true /\
    rts !! peak_index = Some k /\
    k == key.

(** Every non-empty spectrum belongs to a primary peak to which a channel
    contributes. *)
Definition spectra_contributed
    (find_peaks : list Q -> Peak_Detection_MS.find_peaks_args ->
                  list nat * Peak_Detection_MS.peak_properties)
    (check_interval : nat -> nat -> nat -> bool) (prominence : Q)
    (columns : list (Q * list Q)) (rts : list Q) (peak_indices : list nat)
    (ms : list (Q * list (Q * Q))) : Prop :=
  forall key spectrum, dict_get ms key = Some spectrum -> spectrum <> [] ->
    contributes find_peaks check_interval prominence columns rts peak_indices key.

(** [intensity / top * 100], as [np.divide] and the product compute it. *)
Definition relative_intensity (top y : Q) : pyfloat :=
  pf_mul (pf_div (Fin y) (Fin top)) (Fin 100).

(** The mass spectrum of the peak lists the channels of the spectrum of a
    detected peak, each with its intensity and its intensity relative to
    the largest one. *)
Definition normalised {Analyte} (peak_rts : list Q)
    (mass_spectra : list (Q * list (Q * Q))) (p : MS_Peak Analyte) : Prop :=
  exists rt_i spectrum top,
    rt_i ∈ peak_rts /\
    dict_get mass_spectra rt_i = Some spectrum /\
    Peak_Detection_MS.np_max (dict_values spectrum) = Ok top /\
    Peak.mass_spectrum p
    = map (fun e : Q * Q => (e.1, e.2, relative_intensity top e.2)) spectrum.

(** The value that [quantify_analyte] records for an injection. *)
Definition yield_value {Analyte} (rt : Q) (analyte : option Analyte)
    (injection : Analysis.FID_Entry Analyte) : pyfloat :=
  match Analysis.flag_peak injection rt analyte with
  | Some peak => Analysis.quantify (Analysis.fid_injection injection) (Analysis.fid_rt peak)
  | None => Fin 0
  end.





(** * Further worked inputs *)

(** The area of the spike between the borders 2 and 5. *)
Definition spike_areas : list Q :=
  Eval vm_compute in
    match Peak_Detection_MS.calculate_areas spike_chromatogram [(2, 5)] with
    | Ok areas => areas
    | Raise _ => []
    end.

(** A flat signal of height 2 and its area between the borders 1 and 4. *)
Definition flat_chromatogram : Peak_Detection_MS.chromatogram :=
  [(0, 2); (1, 2); (2, 2); (3, 2); (4, 2); (5, 2)].

Definition flat_area : Q :=
  Eval vm_compute in
    match Peak_Detection_MS.peak_area flat_chromatogram (1, 4) with
    | Ok a => a
    | Raise _ => 0
    end.

(** A chromatogram that never rises above zero. *)
Definition silent_chromatogram : Peak_Detection_MS.chromatogram :=
  [(0, 0); (1, 0); (2, 0)].

(** One peak built from a spectrum of two channels. *)
Definition two_channel_peaks : list (Q * MS_Peak unit) :=
  Eval vm_compute in
    match Peak_Detection_MS.initialize_peaks [1] [5] [2] [(0, 2)]
            [(1, [(50, 4); (77, 2)])] [7] with
    | Ok peaks => peaks
    | Raise _ => []
    end.

Definition two_channel_peak : MS_Peak unit :=
  Eval vm_compute in
    match two_channel_peaks with
    | (_, p) :: _ => p
    | [] => MS_Peak_init 0 0 0 (0, 0) [] 0
    end.

(** * Properties of the embedding *)

(** ** Exceptions and loops *)

Lemma bind_Ok_inv {A B} (m : result A) (f : A -> result B) (b : B) :
  m ≫= f = Ok b -> exists a, m = Ok a /\ f a = Ok b.
Proof. destruct m as [a|e]; simpl; [eauto | discriminate]. Qed.

Lemma index_get_Ok {A} (l : list A) i a : index_get l i = Ok a <-> l !! i = Some a.
Proof. unfold index_get. destruct (l !! i); split; congruence. Qed.

Ltac inv_bind H :=
  let a := fresh "a" in
  let Ha := fresh "Ha" in
  apply bind_Ok_inv in H; destruct H as (a & Ha & H).

(** A property that every step preserves holds at the end of a loop. *)
Lemma foldM_preserve {A S} (f : S -> A -> result S) (P : S -> Prop) (l : list A) :
  (forall s a s', a ∈ l -> P s -> f s a = Ok s' -> P s') ->
  forall s s', P s -> foldM f s l = Ok s' -> P s'.
Proof.
  induction l as [|x l IH]; intros Hstep s s' Hs Hrun; simpl in Hrun.
  - congruence.
  - inv_bind Hrun. eapply IH; [| |exact Hrun].
    + intros; eapply Hstep; eauto. by right.
    + eapply Hstep; eauto. by left.
Qed.

(** A property that one step establishes and every step preserves holds
    at the end of a loop that takes that step. *)
Lemma foldM_establish {A S} (f : S -> A -> result S) (P : S -> Prop) (l : list A) (a : A) :
  a ∈ l ->
  (forall s s', f s a = Ok s' -> P s') ->
  (forall s b s', b ∈ l -> P s -> f s b = Ok s' -> P s') ->
  forall s s', foldM f s l = Ok s' -> P s'.
Proof.
  induction l as [|x l IH]; intros Hin Hest Hpres s s' Hrun.
  - by apply elem_of_nil in Hin.
  - simpl in Hrun. inv_bind Hrun.
    apply elem_of_cons in Hin as [->|Hin].
    + eapply foldM_preserve; [| |exact Hrun].
      * intros; eapply Hpres; eauto. by right.
      * eauto.
    + eapply IH; eauto. intros; eapply Hpres; eauto. by right.
Qed.

(** ** Dictionaries *)

Lemma Qeq_bool_trans_false (a b c : Q) :
  Qeq_bool a b = true -> Qeq_bool a c = false -> Qeq_bool b c = false.
Proof.
  intros Hab Hac. destruct (Qeq_bool b c) eqn:Hbc; [|done].
  apply Qeq_bool_iff in Hab, Hbc.
  assert (Qeq_bool a c = true) by (apply Qeq_bool_iff; by rewrite Hab).
  congruence.
Qed.

Lemma dict_get_set {V} (d : list (Q * V)) k v k' :
  dict_get (dict_set d k v) k' = if Qeq_bool k k' then Some v else dict_get d k'.
Proof.
  induction d as [|[k0 v0] d IH]; simpl.
  - by destruct (Qeq_bool k k').
  - destruct (Qeq_bool k0 k) eqn:E; simpl.
    + destruct (Qeq_bool k0 k') eqn:E'.
      * destruct (Qeq_bool k k') eqn:E''; [done|].
        apply Qeq_bool_iff in E, E'.
        assert (Qeq_bool k k' = true) by (apply Qeq_bool_iff; by rewrite <- E, <- E').
        congruence.
      * by rewrite (Qeq_bool_trans_false k0 k k').
    + destruct (Qeq_bool k0 k') eqn:E'; [|apply IH].
      destruct (Qeq_bool k k') eqn:E''; [|done].
      apply Qeq_bool_iff in E', E''.
      assert (Qeq_bool k0 k = true) by (apply Qeq_bool_iff; by rewrite E', E'').
      congruence.
Qed.

Lemma dict_get_Qeq {V} (d : list (Q * V)) k k' :
  k == k' -> dict_get d k = dict_get d k'.
Proof.
  intros Hk. induction d as [|[k0 v0] d IH]; simpl; [done|].
  rewrite IH. destruct (Qeq_bool k0 k) eqn:E, (Qeq_bool k0 k') eqn:E'; try done.
  - apply Qeq_bool_iff in E.
    assert (Qeq_bool k0 k' = true) by (apply Qeq_bool_iff; by rewrite E).
    congruence.
  - apply Qeq_bool_iff in E'.
    assert (Qeq_bool k0 k = true) by (apply Qeq_bool_iff; by rewrite E', Hk).
    congruence.
Qed.

(** ** Mass spectrum extraction *)

Lemma record_channel_entry rts mass_trace channel peak_index ms ms' :
  Peak_Detection_MS.record_channel rts mass_trace channel peak_index ms = Ok ms' ->
  exists key v,
    rts !! peak_index = Some key /\ channel !! peak_index = Some v /\
    forall k t, spectrum_entry ms' k t =
                if Qeq_bool key k && Qeq_bool mass_trace t then Some v
                else spectrum_entry ms k t.
Proof.
  unfold Peak_Detection_MS.record_channel. intros H.
  inv_bind H. rename a into key. apply index_get_Ok in Ha.
  inv_bind H. rename a into spectrum.
  inv_bind H. rename a into v. apply index_get_Ok in Ha1.
  injection H as <-.
  unfold dict_getitem in Ha0.
  destruct (dict_get ms key) as [sp|] eqn:Hsp; [|discriminate].
  injection Ha0 as ->.
  exists key, v. split; [done|]. split; [done|].
  intros k t. unfold spectrum_entry. rewrite dict_get_set.
  destruct (Qeq_bool key k) eqn:Hk; simpl; [|done].
  rewrite dict_get_set.
  apply Qeq_bool_iff in Hk. rewrite <- (dict_get_Qeq ms key k Hk), Hsp. done.
Qed.

Section Extraction.
Variable find_peaks :
  list Q -> Peak_Detection_MS.find_peaks_args -> list nat * Peak_Detection_MS.peak_properties.
Variable check_interval : nat -> nat -> nat -> bool.
Variables (rts : list Q) (columns : list (Q * list Q)) (peak_indices : list nat).
Variable prominence : Q.

(** Distinct primary peaks lie at distinct times. *)
Hypothesis rts_distinct : forall p p' k k',
  p ∈ peak_indices -> p' ∈ peak_indices ->
  rts !! p = Some k -> rts !! p' = Some k' -> k == k' -> p = p'.

(** A channel label names one signal. *)
Hypothesis labels_distinct : forall t c t' c',
  (t, c) ∈ columns -> (t', c') ∈ columns -> t == t' -> c = c'.

Variables (mass_trace : Q) (channel : list Q) (peak_index : nat).
Hypothesis column_in : (mass_trace, channel) ∈ columns.
Hypothesis peak_in : peak_index ∈ peak_indices.

Lemma record_channel_aligned t c p ms ms' :
  (t, c) ∈ columns -> p ∈ peak_indices ->
  (aligned rts mass_trace channel peak_index) ms \/ (t = mass_trace /\ c = channel /\ p = peak_index) ->
  Peak_Detection_MS.record_channel rts t c p ms = Ok ms' -> (aligned rts mass_trace channel peak_index) ms'.
Proof.
  intros Hc Hp Hcase Hrec.
  apply record_channel_entry in Hrec as (key' & v' & Hkey' & Hv' & Hentry).
  destruct Hcase as [(key & v & Hkey & Hv & He)|(-> & -> & ->)].
  - exists key, v. split; [done|]. split; [done|].
    rewrite Hentry.
    destruct (Qeq_bool key' key) eqn:Ek; simpl; [|done].
    destruct (Qeq_bool t mass_trace) eqn:Et; simpl; [|done].
    apply Qeq_bool_iff in Ek, Et.
    assert (p = peak_index) as -> by eauto using rts_distinct.
    assert (c = channel) as -> by eauto using labels_distinct.
    congruence.
  - exists key', v'. split; [done|]. split; [done|].
    rewrite Hentry.
    assert (Qeq_bool key' key' = true) as -> by (by apply Qeq_bool_iff).
    assert (Qeq_bool mass_trace mass_trace = true) as -> by (by apply Qeq_bool_iff).
    done.
Qed.

Lemma inner_loop_aligned t c p indices ms ms' :
  (t, c) ∈ columns -> p ∈ peak_indices ->
  (aligned rts mass_trace channel peak_index) ms \/
    (t = mass_trace /\ c = channel /\ p = peak_index /\
     exists index, index ∈ indices /\ check_interval index p 5 = true) ->
  foldM (fun ms index =>
           if check_interval index p 5
           then Peak_Detection_MS.record_channel rts t c p ms
           else Ok ms) ms indices = Ok ms' ->
  (aligned rts mass_trace channel peak_index) ms'.
Proof.
  intros Hc Hp [Hal|(-> & -> & -> & index & Hin & Hchk)] Hrun.
  - revert Hal Hrun. apply foldM_preserve.
    intros s i s' _ Hs Hstep. destruct (check_interval i p 5).
    + eapply record_channel_aligned; eauto.
    + congruence.
  - revert Hrun. apply (foldM_establish _ (aligned rts mass_trace channel peak_index) indices index Hin).
    + intros s s'. rewrite Hchk. eapply record_channel_aligned; eauto.
    + intros s i s' _ Hs. destruct (check_interval i peak_index 5).
      * eapply record_channel_aligned; eauto.
      * congruence.
Qed.

Lemma extract_trace_aligned t c ms ms' :
  (t, c) ∈ columns ->
  (aligned rts mass_trace channel peak_index) ms \/
    (t = mass_trace /\ c = channel /\
     exists index,
       index ∈ (find_peaks channel
                  {| Peak_Detection_MS.fp_height := None;
                     Peak_Detection_MS.fp_prominence := Some (Fin prominence);
                     Peak_Detection_MS.fp_width := None;
                     Peak_Detection_MS.fp_rel_height := None |}).1 /\
       check_interval index peak_index 5 = true) ->
  Peak_Detection_MS.extract_trace find_peaks check_interval rts prominence
    peak_indices ms (t, c) = Ok ms' ->
  (aligned rts mass_trace channel peak_index) ms'.
Proof.
  intros Hc Hcase. unfold Peak_Detection_MS.extract_trace.
  destruct (find_peaks c _) as [indices props] eqn:Hfp.
  destruct Hcase as [Hal|(-> & -> & index & Hin & Hchk)]; intros Hrun.
  - revert Hal Hrun. apply foldM_preserve.
    intros s p s' Hp Hs. eapply inner_loop_aligned; eauto.
  - rewrite Hfp in Hin. simpl in Hin.
    revert Hrun. apply (foldM_establish _ (aligned rts mass_trace channel peak_index) peak_indices peak_index peak_in).
    + intros s s'. eapply inner_loop_aligned; eauto.
      right; repeat split; eauto.
    + intros s p s' Hp Hs. eapply inner_loop_aligned; eauto.
Qed.

End Extraction.

(** C6.  In mass-spectrum extraction, for every channel signal, every
    channel-peak index that [find_peaks] detects in it and every primary
    peak index that passes the window test [check_interval index
    peak_index 5] against it, the entry recorded for that channel in the
    primary peak's spectrum is the channel's intensity at the primary
    peak's own index.  The primary peaks lie at distinct times and a
    channel label names one signal. *)
Theorem extract_mass_spectrum_aligned
    (find_peaks : list Q -> Peak_Detection_MS.find_peaks_args ->
                  list nat * Peak_Detection_MS.peak_properties)
    (check_interval : nat -> nat -> nat -> bool)
    (scans : Peak_Detection_MS.Scans) (peak_rts : list Q) (peak_indices : list nat)
    (s s' : Peak_Detection_MS.Analysis_Settings) (ms : list (Q * list (Q * Q))) :
  let rts := map (fun t => t / 60000) (Peak_Detection_MS.scan_index scans) in
  let prominence := (Peak_Detection_MS.pop s "trace_prominence" 220).1 in
  Peak_Detection_MS.extract_mass_spectrum find_peaks check_interval scans
    peak_rts peak_indices s = Ok (ms, s') ->
  (forall p p' k k', p ∈ peak_indices -> p' ∈ peak_indices ->
     rts !! p = Some k -> rts !! p' = Some k' -> k == k' -> p = p') ->
  (forall t c t' c', (t, c) ∈ Peak_Detection_MS.scan_columns scans ->
     (t', c') ∈ Peak_Detection_MS.scan_columns scans -> t == t' -> c = c') ->
  forall mass_trace channel index peak_index,
    (mass_trace, channel) ∈ Peak_Detection_MS.scan_columns scans ->
    index ∈ (find_peaks channel
               {| Peak_Detection_MS.fp_height := None;
                  Peak_Detection_MS.fp_prominence := Some (Fin prominence);
                  Peak_Detection_MS.fp_width := None;
                  Peak_Detection_MS.fp_rel_height := None |}).1 ->
    peak_index ∈ peak_indices ->
    check_interval index peak_index 5%nat = true ->
    exists key spectrum v,
      rts !! peak_index = Some key /\
      dict_get ms key = Some spectrum /\
      channel !! peak_index = Some v /\
      dict_get spectrum mass_trace = Some v.
Proof.
  intros rts prominence Hrun Hrts Hlab mass_trace channel index peak_index
    Hcol Hidx Hpk Hchk.
  unfold Peak_Detection_MS.extract_mass_spectrum in Hrun.
  subst prominence.
  destruct (Peak_Detection_MS.pop s "trace_prominence" 220) as [prominence s1].
  inv_bind Hrun. injection Hrun as -> ->.
  assert (aligned rts mass_trace channel peak_index ms) as (key & v & Hkey & Hv & He).
  { revert Ha.
    apply (foldM_establish _ (aligned rts mass_trace channel peak_index)
             (Peak_Detection_MS.scan_columns scans) (mass_trace, channel) Hcol).
    - intros m m'. eapply extract_trace_aligned; eauto.
      right; repeat split; eauto.
    - intros m [t c] m' Hin Hal. eapply extract_trace_aligned; eauto. }
  unfold spectrum_entry in He.
  destruct (dict_get ms key) as [spectrum|] eqn:Hsp; [|discriminate].
  exists key, spectrum, v. auto.
Qed.

(** ** Nearest samples and Simpson's rule *)

Lemma argmin_from_first_least (l pre : list Q) (best_i : nat) (best_v : Q) :
  pre !! best_i = Some best_v ->
  (forall j x, pre !! j = Some x -> best_v <= x /\ ((j < best_i)%nat -> best_v < x)) ->
  first_least (pre ++ l) (Peak_Detection_MS.argmin_from best_i best_v (length pre) l).
Proof.
  revert pre best_i best_v.
  induction l as [|x l IH]; intros pre best_i best_v Hbest Hmin; simpl.
  - rewrite app_nil_r. by exists best_v.
  - assert (Hlt : (best_i < length pre)%nat) by (by eapply lookup_lt_Some).
    replace (pre ++ x :: l) with ((pre ++ [x]) ++ l) by (by rewrite <- app_assoc).
    replace (S (length pre)) with (length (pre ++ [x]))
      by (rewrite length_app; simpl; lia).
    destruct (Qle_bool best_v x) eqn:Hle.
    + apply Qle_bool_iff in Hle. apply IH.
      * by apply lookup_app_l_Some.
      * intros j y Hj. apply lookup_app_Some in Hj as [Hj|[Hge Hj]]; [by apply Hmin|].
        apply list_lookup_singleton_Some in Hj as [Hj <-].
        split; [done|]. intros; lia.
    + assert (x < best_v).
      { apply Qnot_le_lt. intros Hc. apply Qle_bool_iff in Hc. congruence. }
      apply IH.
      * rewrite lookup_app_r by lia. by rewrite Nat.sub_diag.
      * intros j y Hj. apply lookup_app_Some in Hj as [Hj|[Hge Hj]].
        -- destruct (Hmin j y Hj) as [Hy _]. split; [lra|]. intros _. lra.
        -- apply list_lookup_singleton_Some in Hj as [Hj <-].
           split; [lra|]. intros; lia.
Qed.

Lemma argmin_first_least (l : list Q) (i : nat) :
  Peak_Detection_MS.argmin l = Ok i -> first_least l i.
Proof.
  destruct l as [|x l]; simpl; [discriminate|].
  intros [= <-].
  apply (argmin_from_first_least l [x] 0 x); [done|].
  intros [|j] y Hj; simpl in Hj; [|done].
  injection Hj as <-. split; [lra|lia].
Qed.

Lemma nearest_index_nearest (time_values : list Q) (b : Q) (i : nat) :
  Peak_Detection_MS.nearest_index time_values b = Ok i ->
  nearest_sample time_values b i.
Proof.
  intros H. apply argmin_first_least in H as (m & Hm & Hmin).
  rewrite list_lookup_fmap in Hm.
  destruct (time_values !! i) as [t|] eqn:Ht; [|discriminate].
  injection Hm as <-. exists t. split; [done|].
  intros j t' Hj. apply (Hmin j). by rewrite list_lookup_fmap, Hj.
Qed.



(** On an odd number of samples, at least three, the panels of
    [_basic_simpson] add up to the weighted sum of the textbook rule. *)
Lemma simpson_panels_cons2 (y0 y1 y2 : Q) (rest : list Q) :
  Peak_Detection_MS.simpson_panels (y0 :: y1 :: y2 :: rest)
  = (y0 + 4 * y1 + y2) + Peak_Detection_MS.simpson_panels (y2 :: rest).
Proof. reflexivity. Qed.


Lemma simpson_odd (y : list Q) :
  Nat.odd (length y) = true ->
  Peak_Detection_MS.simpson y = Ok (Peak_Detection_MS.basic_simpson y).
Proof.
  intros Hodd. unfold Peak_Detection_MS.simpson.
  rewrite <- Nat.negb_odd, Hodd. done.
Qed.


(** ** Building the peak dictionary *)

Lemma mapM_Ok_lookup {A B} (f : A -> result B) (l : list A) (k : list B) :
  mapM f l = Ok k ->
  length k = length l /\
  forall i x y, l !! i = Some x -> k !! i = Some y -> f x = Ok y.
Proof.
  revert k. induction l as [|a l IH]; intros k H; simpl in H.
  - injection H as <-. split; [done|]. intros i x y Hx. by rewrite lookup_nil in Hx.
  - inv_bind H. rename a0 into b. inv_bind H. rename a0 into k'.
    injection H as <-. destruct (IH k' Ha0) as [Hlen Hk].
    split; [simpl; congruence|].
    intros [|i] x y Hx Hy; simpl in *; [congruence|eauto].
Qed.

Lemma foldM_app {A S} (f : S -> A -> result S) (l1 l2 : list A) (s : S) :
  foldM f s (l1 ++ l2) = foldM f s l1 ≫= fun s' => foldM f s' l2.
Proof.
  revert s. induction l1 as [|a l1 IH]; intros s; simpl; [done|].
  destruct (f s a) as [s1|e]; simpl; [apply IH|done].
Qed.


Lemma Qeq_bool_sym (a b : Q) : Qeq_bool a b = Qeq_bool b a.
Proof.
  destruct (Qeq_bool a b) eqn:E, (Qeq_bool b a) eqn:E'; try done.
  - apply Qeq_bool_iff in E. symmetry in E. apply Qeq_bool_iff in E. congruence.
  - apply Qeq_bool_iff in E'. symmetry in E'. apply Qeq_bool_iff in E'. congruence.
Qed.

Lemma dict_set_wf {V} (d : list (Q * V)) k v : dict_wf d -> dict_wf (dict_set d k v).
Proof.
  induction d as [|[k0 v0] d IH]; simpl; [done|].
  intros [Hnone Hwf]. destruct (Qeq_bool k0 k) eqn:E; simpl.
  - done.
  - split; [|auto]. rewrite dict_get_set, Qeq_bool_sym, E. done.
Qed.



Lemma elem_of_dict_set {V} (d : list (Q * V)) k v k0 v0 :
  (k0, v0) ∈ dict_set d k v ->
  (k0, v0) ∈ d \/ (v0 = v /\ (k0 = k \/ exists v', (k0, v') ∈ d /\ k0 == k)).
Proof.
  induction d as [|[k1 v1] d IH]; simpl; intros Hin.
  - apply list_elem_of_singleton in Hin as [= -> ->]. right. auto.
  - destruct (Qeq_bool k1 k) eqn:E.
    + apply elem_of_cons in Hin as [[= -> ->]|Hin].
      * right. split; [done|]. right. exists v1. split; [by left|].
        by apply Qeq_bool_iff.
      * left. by right.
    + apply elem_of_cons in Hin as [[= -> ->]|Hin].
      * left. by left.
      * destruct (IH Hin) as [?|(-> & [->|(v' & ? & ?)])].
        -- left. by right.
        -- right. auto.
        -- right. split; [done|]. right. exists v'. split; [by right|done].
Qed.


Lemma round3_canonical (x y : Q) :
  Peak_Detection_MS.round3 x == Peak_Detection_MS.round3 y ->
  Peak_Detection_MS.round3 x = Peak_Detection_MS.round3 y.
Proof.
  unfold Peak_Detection_MS.round3. intros H.
  apply Qred_complete. by rewrite !Qred_correct in H.
Qed.

Section Initialize.
Context {Analyte : Type}.
Variables (peak_rts peak_heights peak_widths : list Q).
Variables (peak_boarders : list (Q * Q)) (mass_spectra : list (Q * list (Q * Q))).
Variable peak_areas : list Q.

Lemma initialize_peak_Ok (peaks peaks' : list (Q * MS_Peak Analyte)) i rt_i :
  peak_rts !! i = Some rt_i ->
  Peak_Detection_MS.initialize_peak peak_heights peak_widths peak_boarders
    mass_spectra peak_areas peaks (i, rt_i) = Ok peaks' ->
  exists p, (built_at peak_rts peak_heights peak_widths peak_boarders peak_areas) i p /\
    peaks' = dict_set peaks (Peak_Detection_MS.round3 rt_i) p.
Proof.
  intros Hrt H. unfold Peak_Detection_MS.initialize_peak in H.
  inv_bind H. rename a into area. apply index_get_Ok in Ha.
  inv_bind H. rename a into spectrum.
  inv_bind H. rename a into top.
  inv_bind H. rename a into h. apply index_get_Ok in Ha2.
  inv_bind H. rename a into w. apply index_get_Ok in Ha3.
  inv_bind H. rename a into b. apply index_get_Ok in Ha4.
  injection H as <-.
  eexists. split; [|reflexivity].
  exists rt_i. simpl. auto 10.
Qed.

Lemma initialize_peak_keyed (peaks peaks' : list (Q * MS_Peak Analyte)) i rt_i :
  peak_rts !! i = Some rt_i -> (keyed_by_rt peak_rts peak_heights peak_widths peak_boarders peak_areas) peaks ->
  Peak_Detection_MS.initialize_peak peak_heights peak_widths peak_boarders
    mass_spectra peak_areas peaks (i, rt_i) = Ok peaks' ->
  (keyed_by_rt peak_rts peak_heights peak_widths peak_boarders peak_areas) peaks'.
Proof.
  intros Hrt Hk H. apply initialize_peak_Ok in H as (p & Hp & ->); [|done].
  intros k q Hin. apply elem_of_dict_set in Hin as [Hin|(-> & Hkey)]; [by apply Hk|].
  assert (Hrtp : Peak.rt p = Peak_Detection_MS.round3 rt_i) by (by destruct Hp as (? & ? & ? & _); congruence).
  split; [|eauto]. destruct Hkey as [->|(v' & Hin & Heq)]; [done|].
  destruct (Hk k v' Hin) as [-> (j & rt_j & _ & Hj & _)].
  rewrite Hj, Hrtp. apply round3_canonical. by rewrite <- Hj.
Qed.

Lemma elem_of_enumerate (i : nat) (x : Q) (l : list Q) :
  (i, x) ∈ imap (fun i rt => (i, rt)) l <-> l !! i = Some x.
Proof.
  rewrite elem_of_lookup_imap. split.
  - intros (j & y & [= -> ->] & H). done.
  - intros H. eauto.
Qed.

Lemma initialize_peaks_keyed (peaks : list (Q * MS_Peak Analyte)) :
  Peak_Detection_MS.initialize_peaks peak_rts peak_heights peak_widths
    peak_boarders mass_spectra peak_areas = Ok peaks ->
  (keyed_by_rt peak_rts peak_heights peak_widths peak_boarders peak_areas) peaks /\ dict_wf peaks.
Proof.
  unfold Peak_Detection_MS.initialize_peaks. intros H.
  revert H. apply (foldM_preserve _ (fun d => (keyed_by_rt peak_rts peak_heights peak_widths peak_boarders peak_areas) d /\ dict_wf d)).
  - intros d [i rt_i] d' Hin [Hk Hwf] Hstep.
    apply elem_of_enumerate in Hin. split.
    + eapply initialize_peak_keyed; eauto.
    + apply initialize_peak_Ok in Hstep as (p & _ & ->); [|done].
      by apply dict_set_wf.
  - split; [|done]. intros k p Hin. by apply elem_of_nil in Hin.
Qed.



End Initialize.

(** ** The pipeline of [pick_peaks] *)

Lemma detect_peaks_scipy_Ok find_peaks c s idx rts hs ws bs areas s1 :
  Peak_Detection_MS.detect_peaks_scipy find_peaks c s
    = Ok (idx, rts, hs, ws, bs, areas, s1) ->
  Peak_Detection_MS.calculate_areas c bs = Ok areas /\
  mapM (index_get (Peak_Detection_MS.chrom_time c)) idx = Ok rts.
Proof.
  unfold Peak_Detection_MS.detect_peaks_scipy. intros H.
  inv_bind H.
  destruct (Peak_Detection_MS.pop s "height" _) as [min_height s2].
  destruct (Peak_Detection_MS.pop s2 "prominence_ms" _) as [prom s3].
  destruct (Peak_Detection_MS.pop s3 "width" _) as [w s4].
  destruct (find_peaks _ _) as [peak_indices props].
  inv_bind H. inv_bind H. inv_bind H. inv_bind H.
  injection H as <- <- <- <- <- <- <-. done.
Qed.

Lemma pick_peaks_Ok {Analyte} find_peaks check_interval c scans s
    (peaks : list (Q * MS_Peak Analyte)) :
  Peak_Detection_MS.pick_peaks find_peaks check_interval c scans s = Ok peaks ->
  exists idx rts hs ws bs areas s1 spectra s2,
    Peak_Detection_MS.detect_peaks_scipy find_peaks c s
      = Ok (idx, rts, hs, ws, bs, areas, s1) /\
    Peak_Detection_MS.extract_mass_spectrum find_peaks check_interval scans rts idx s1
      = Ok (spectra, s2) /\
    Peak_Detection_MS.initialize_peaks rts hs ws bs spectra areas = Ok peaks.
Proof.
  unfold Peak_Detection_MS.pick_peaks. intros H.
  inv_bind H. destruct a as [[[[[[idx rts] hs] ws] bs] areas] s1].
  inv_bind H. destruct a as [spectra s2].
  exists idx, rts, hs, ws, bs, areas, s1, spectra, s2. auto.
Qed.

Lemma peak_area_Ok c b a :
  Peak_Detection_MS.peak_area c b = Ok a ->
  exists start_idx end_idx,
    nearest_sample (Peak_Detection_MS.chrom_time c) b.1 start_idx /\
    nearest_sample (Peak_Detection_MS.chrom_time c) b.2 end_idx /\
    Peak_Detection_MS.simpson
      (Peak_Detection_MS.slice (Peak_Detection_MS.chrom_intensities c) start_idx end_idx)
    = Ok a.
Proof.
  unfold Peak_Detection_MS.peak_area. intros H.
  inv_bind H. rename a0 into start_idx. inv_bind H. rename a0 into end_idx.
  exists start_idx, end_idx. eauto using nearest_index_nearest.
Qed.


Lemma foldM_Ok_step {A S} (f : S -> A -> result S) (l : list A) (a : A) (s s' : S) :
  foldM f s l = Ok s' -> a ∈ l -> exists s1 s2, f s1 a = Ok s2.
Proof.
  intros H Hin. apply list_elem_of_split in Hin as (l1 & l2 & ->).
  rewrite foldM_app in H. inv_bind H. simpl in H. inv_bind H. eauto.
Qed.

(** A primary peak whose spectrum is empty stops the construction. *)
Lemma empty_spectrum_stops_construction {Analyte} rts hs ws bs spectra areas i rt_i :
  rts !! i = Some rt_i -> dict_get spectra rt_i = Some [] ->
  is_ok (Peak_Detection_MS.initialize_peaks (Analyte := Analyte)
           rts hs ws bs spectra areas) = false.
Proof.
  intros Hi Hsp.
  destruct (Peak_Detection_MS.initialize_peaks _ _ _ _ _ _) as [peaks|e] eqn:H; [|done].
  exfalso. unfold Peak_Detection_MS.initialize_peaks in H.
  eapply (foldM_Ok_step _ _ (i, rt_i)) in H as (d1 & d2 & H);
    [|by apply elem_of_enumerate].
  unfold Peak_Detection_MS.initialize_peak in H.
  inv_bind H. inv_bind H. unfold dict_getitem in Ha0. rewrite Hsp in Ha0.
  injection Ha0 as <-. inv_bind H. discriminate.
Qed.




(** ** Widening the borders *)

Lemma simpson_panels_nonneg (y : list Q) :
  Forall (fun v => 0 <= v) y -> 0 <= Peak_Detection_MS.simpson_panels y.
Proof.
  assert (H : forall n (l : list Q), (length l <= n)%nat ->
            Forall (fun v => 0 <= v) l -> 0 <= Peak_Detection_MS.simpson_panels l).
  { induction n as [|n IH]; intros l Hlen Hl.
    - destruct l; [simpl; lra|simpl in Hlen; lia].
    - destruct l as [|y0 [|y1 [|y2 rest]]]; try (simpl; lra).
      rewrite simpson_panels_cons2.
      apply Forall_cons in Hl as [H0 Hl]. apply Forall_cons in Hl as [H1 Hl].
      assert (0 <= y2) by (by apply Forall_cons in Hl as [? _]).
      assert (0 <= Peak_Detection_MS.simpson_panels (y2 :: rest)).
      { apply IH; [simpl in *; lia|done]. }
      lra. }
  eauto.
Qed.

(** The panels split at a sample that starts a panel. *)
Lemma simpson_panels_split (n : nat) (pre : list Q) (x : Q) (post : list Q) :
  length pre = (2 * n)%nat ->
  Peak_Detection_MS.simpson_panels (pre ++ x :: post)
  == Peak_Detection_MS.simpson_panels (pre ++ [x])
     + Peak_Detection_MS.simpson_panels (x :: post).
Proof.
  revert pre. induction n as [|n IH]; intros pre Hlen.
  - destruct pre; [|discriminate]. simpl app.
    change (Peak_Detection_MS.simpson_panels [x]) with 0. ring.
  - destruct pre as [|a [|b pre]]; try (simpl in Hlen; lia).
    assert (Hpre : length pre = (2 * n)%nat) by (simpl in Hlen; lia).
    specialize (IH pre Hpre).
    destruct pre as [|c pre'].
    + simpl app in *. rewrite !simpson_panels_cons2.
      change (Peak_Detection_MS.simpson_panels [x]) with 0. ring.
    + simpl app in *. rewrite !simpson_panels_cons2. rewrite IH. ring.
Qed.

Lemma slice_split {A} (l : list A) (a b c : nat) :
  (a <= b)%nat -> (b <= c)%nat ->
  Peak_Detection_MS.slice l a c
  = Peak_Detection_MS.slice l a b ++ Peak_Detection_MS.slice l b c.
Proof.
  intros Hab Hbc. unfold Peak_Detection_MS.slice.
  replace (c - a)%nat with ((b - a) + (c - b))%nat by lia.
  rewrite <- (take_drop (b - a) (take (b - a + (c - b)) (drop a l))).
  rewrite take_take, Nat.min_l by lia. f_equal.
  rewrite skipn_firstn_comm, drop_drop.
  replace (b - a + (c - b) - (b - a))%nat with (c - b)%nat by lia.
  replace (a + (b - a))%nat with b by lia. done.
Qed.

Lemma slice_length {A} (l : list A) (a b : nat) :
  (b <= length l)%nat -> length (Peak_Detection_MS.slice l a b) = (b - a)%nat.
Proof.
  intros Hb. unfold Peak_Detection_MS.slice. rewrite length_take, length_drop. lia.
Qed.

Lemma slice_Forall {A} (P : A -> Prop) (l : list A) (a b : nat) :
  Forall P l -> Forall P (Peak_Detection_MS.slice l a b).
Proof. intros H. unfold Peak_Detection_MS.slice. by apply Forall_take, Forall_drop. Qed.

(** Simpson's sum over an odd number of non-negative samples does not
    shrink when an even number of such samples is put before and after. *)
Lemma basic_simpson_widen (pre narrow post : list Q) :
  Nat.even (length pre) = true -> Nat.even (length post) = true ->
  Nat.odd (length narrow) = true ->
  Forall (fun v => 0 <= v) pre -> Forall (fun v => 0 <= v) narrow ->
  Forall (fun v => 0 <= v) post ->
  Peak_Detection_MS.basic_simpson narrow
  <= Peak_Detection_MS.basic_simpson (pre ++ narrow ++ post).
Proof.
  intros Hpre Hpost Hnarrow Fpre Fnarrow Fpost.
  apply Nat.even_spec in Hpre as [n Hn].
  destruct narrow as [|x0 rest]; [discriminate|].
  destruct (exists_last (l := x0 :: rest)) as (init & xl & Hsplit); [done|].
  assert (Hinit : Nat.even (length init) = true).
  { apply (f_equal length) in Hsplit. rewrite length_app in Hsplit.
    simpl in Hsplit. rewrite Nat.add_1_r in Hsplit.
    rewrite <- Nat.negb_odd. simpl length in Hnarrow.
    rewrite Hsplit, Nat.odd_succ, <- Nat.negb_odd in Hnarrow.
    by destruct (Nat.odd (length init)). }
  apply Nat.even_spec in Hinit as [m Hm].
  unfold Peak_Detection_MS.basic_simpson.
  assert (Peak_Detection_MS.simpson_panels (pre ++ (x0 :: rest) ++ post)
          == Peak_Detection_MS.simpson_panels (pre ++ [x0])
             + Peak_Detection_MS.simpson_panels (x0 :: rest)
             + Peak_Detection_MS.simpson_panels (xl :: post)) as ->.
  { simpl app. rewrite (simpson_panels_split n pre x0 (rest ++ post) Hn).
    change (x0 :: rest ++ post) with ((x0 :: rest) ++ post).
    rewrite Hsplit, <- app_assoc. simpl app.
    rewrite (simpson_panels_split m init xl post Hm). ring. }
  assert (0 <= Peak_Detection_MS.simpson_panels (pre ++ [x0])).
  { apply simpson_panels_nonneg, Forall_app. split; [done|].
    apply Forall_cons in Fnarrow as [? _]. by apply Forall_singleton. }
  assert (0 <= Peak_Detection_MS.simpson_panels (xl :: post)).
  { apply simpson_panels_nonneg, Forall_cons. split; [|done].
    rewrite Hsplit in Fnarrow. apply Forall_app in Fnarrow as [_ Hl].
    by inversion Hl. }
  lra.
Qed.

Lemma nearest_index_lt (time_values : list Q) (b : Q) (i : nat) :
  Peak_Detection_MS.nearest_index time_values b = Ok i -> (i < length time_values)%nat.
Proof.
  intros H. apply nearest_index_nearest in H as (t & Ht & _).
  by eapply lookup_lt_Some.
Qed.

(** C8, as stated, fails: on [spike_chromatogram] the borders (2, 5) give
    the area 4 and the wider borders (1, 6) the area 2. *)
Lemma peak_area_not_monotone :
  ~ (forall (c : Peak_Detection_MS.chromatogram) (b b' : Q * Q) (a a' : Q),
       Forall (fun v => 0 <= v) (Peak_Detection_MS.chrom_intensities c) ->
       b'.1 <= b.1 -> b.2 <= b'.2 ->
       Peak_Detection_MS.peak_area c b = Ok a ->
       Peak_Detection_MS.peak_area c b' = Ok a' ->
       a <= a').
Proof.
  intros H.
  specialize (H spike_chromatogram (2, 5) (1, 6) (12 # 3) (6 # 3)).
  assert (Hle : (12 # 3) <= (6 # 3)).
  { apply H.
    - unfold spike_chromatogram, Peak_Detection_MS.chrom_intensities. simpl.
      repeat (apply Forall_cons; split; [unfold Qle; simpl; lia|]). by constructor.
    - unfold Qle; simpl; lia.
    - unfold Qle; simpl; lia.
    - reflexivity.
    - reflexivity. }
  unfold Qle in Hle. simpl in Hle. lia.
Qed.

(** C8, amended.  For non-negative intensities, widening the borders so
    that the start index moves earlier by an even number of samples and
    the end index moves later by an even number of samples, the narrower
    range holding an odd number of samples, never decreases the computed
    area. *)
Theorem peak_area_even_widening (c : Peak_Detection_MS.chromatogram)
    (b b' : Q * Q) (start_idx end_idx start_idx' end_idx' : nat) :
  Forall (fun v => 0 <= v) (Peak_Detection_MS.chrom_intensities c) ->
  Peak_Detection_MS.nearest_index (Peak_Detection_MS.chrom_time c) b.1 = Ok start_idx ->
  Peak_Detection_MS.nearest_index (Peak_Detection_MS.chrom_time c) b.2 = Ok end_idx ->
  Peak_Detection_MS.nearest_index (Peak_Detection_MS.chrom_time c) b'.1 = Ok start_idx' ->
  Peak_Detection_MS.nearest_index (Peak_Detection_MS.chrom_time c) b'.2 = Ok end_idx' ->
  (start_idx' <= start_idx)%nat -> (end_idx <= end_idx')%nat ->
  Nat.even (start_idx - start_idx') = true ->
  Nat.even (end_idx' - end_idx) = true ->
  Nat.odd (end_idx - start_idx) = true ->
  exists a a',
    Peak_Detection_MS.peak_area c b = Ok a /\
    Peak_Detection_MS.peak_area c b' = Ok a' /\
    a <= a'.
Proof.
  intros Hpos Hs He Hs' He' Hss Hee Hpre Hpost Hodd.
  set (y := Peak_Detection_MS.chrom_intensities c) in *.
  assert (Hlen : (end_idx' < length y)%nat).
  { apply nearest_index_lt in He'.
    unfold y, Peak_Detection_MS.chrom_intensities, Peak_Detection_MS.chrom_time in *.
    by rewrite !length_fmap in *. }
  assert (Hlt : (start_idx < end_idx)%nat).
  { destruct (end_idx - start_idx)%nat eqn:E; [discriminate|lia]. }
  assert (Hwide : Peak_Detection_MS.slice y start_idx' end_idx'
                  = Peak_Detection_MS.slice y start_idx' start_idx
                    ++ Peak_Detection_MS.slice y start_idx end_idx
                    ++ Peak_Detection_MS.slice y end_idx end_idx').
  { rewrite (slice_split y start_idx' start_idx end_idx') by lia.
    by rewrite (slice_split y start_idx end_idx end_idx') by lia. }
  exists (Peak_Detection_MS.basic_simpson (Peak_Detection_MS.slice y start_idx end_idx)),
         (Peak_Detection_MS.basic_simpson (Peak_Detection_MS.slice y start_idx' end_idx')).
  unfold Peak_Detection_MS.peak_area. rewrite Hs, He, Hs', He'. simpl.
  fold y. split; [|split].
  - apply simpson_odd. by rewrite slice_length by lia.
  - apply simpson_odd. rewrite slice_length by lia.
    replace (end_idx' - start_idx')%nat
      with ((start_idx - start_idx') + ((end_idx - start_idx) + (end_idx' - end_idx)))%nat
      by lia.
    rewrite !Nat.odd_add, Hodd, <- !Nat.negb_even, Hpre, Hpost. done.
  - rewrite Hwide. apply basic_simpson_widen; try by apply slice_Forall.
    + by rewrite slice_length by lia.
    + by rewrite slice_length by lia.
    + by rewrite slice_length by lia.
Qed.

Lemma peak_area_even_widening_witness :
  exists a a',
    Peak_Detection_MS.peak_area panel_chromatogram (2, 5) = Ok a /\
    Peak_Detection_MS.peak_area panel_chromatogram (0, 7) = Ok a' /\
    a <= a'.
Proof.
  apply (peak_area_even_widening panel_chromatogram (2, 5) (0, 7) 2 5 0 7);
    try reflexivity; try lia.
  unfold panel_chromatogram, Peak_Detection_MS.chrom_intensities. simpl.
  repeat (apply Forall_cons; split; [unfold Qle; simpl; lia|]). by constructor.
Defined.

(** ** A primary peak without a contributing channel *)

(** C4.  The code does not guard the empty spectrum.  A primary peak at
    index 1 to which no channel is attributed gets the empty spectrum
    from [__extract_mass_spectrum], and [__initialize_peaks] then raises
    on [np.max] of the empty intensity list instead of leaving the
    relative intensities empty. *)
Theorem initialize_peaks_empty_spectrum_raises :
  Peak_Detection_MS.extract_mass_spectrum no_peaks check_interval_spec
    quiet_scans [1] [1%nat] no_settings = Ok ([(1, [])], no_settings) /\
  Peak_Detection_MS.initialize_peaks (Analyte := unit)
    [1] [5] [2] [(0, 2)] [(1, [])] [7]
  = Raise (ValueError
      "zero-size array to reduction operation maximum which has no identity").
Proof. split; reflexivity. Qed.

(** ** Loops that fill the result dictionary *)

Lemma foldM_total {A S} (f : S -> A -> result S) (l : list A) :
  (forall s a, a ∈ l -> exists s', f s a = Ok s') ->
  forall s, exists s', foldM f s l = Ok s'.
Proof.
  induction l as [|x l IH]; intros Hf s; simpl; [eauto|].
  destruct (Hf s x) as [s1 ->]; [by left|]. simpl.
  apply IH. intros; apply Hf. by right.
Qed.







(** ** Cross-modality quantification *)

Section CrossModality.
Context {Analyte : Type}.
Variable fid_sequence : gmap string (Analysis.FID_Injection Analyte).
Variable layout : Analysis.Layout Analyte.
Variable index : Z.


Lemma match_and_quantify_step_total mode st name inj :
  mode = "yield" \/ mode = "conv" ->
  is_Some (fid_sequence !! name) ->
  exists st', Analysis.match_and_quantify_step fid_sequence layout mode index st (name, inj)
              = Ok st'.
Proof.
  intros Hmode [f Hf]. destruct st as [an results].
  unfold Analysis.match_and_quantify_step. rewrite Hf. simpl.
  destruct Hmode as [-> | ->]; simpl;
    (destruct (Analysis.match_mol inj _) as [m|];
     [destruct (Analysis.match_ri f _ _) as [r|]|]; eauto).
Qed.



Lemma match_and_quantify_total ms_sequence mode :
  mode = "yield" \/ mode = "conv" ->
  (forall n i, (n, i) ∈ ms_sequence -> is_Some (fid_sequence !! n)) ->
  exists d, Analysis.match_and_quantify ms_sequence fid_sequence layout mode index = Ok d.
Proof.
  intros Hmode Hfid. unfold Analysis.match_and_quantify.
  destruct (foldM_total
              (Analysis.match_and_quantify_step fid_sequence layout mode index)
              ms_sequence) with (s := (None : option Analyte,
                                       (∅ : gmap string (Analysis.well_result Analyte))))
    as [st Hst].
  - intros s [n i] Hin. apply match_and_quantify_step_total; eauto.
  - rewrite Hst. simpl. eauto.
Qed.


End CrossModality.


(** ** MS-only quantification *)

Section MSOnly.
Context {Analyte : Type}.
Variable mz : Analyte -> Q.
Variable layout : Analysis.Layout Analyte.
Variables mode ms_quantification_mode relative_to : string.
Variable index : Z.




End MSOnly.


(** C5.  In MS-only quantification, a product ratio in [0, 100] is
    assigned exactly one class: "excellent" iff the ratio is at least 70,
    "good" iff it is at least 50 and below 70, "fair" iff at least 20 and
    below 50, "poor" iff at least 5 and below 20, "trace" iff below 5. *)
Theorem classify_partition (ratio : Q) (earlier : option Analysis.quantity) :
  0 <= ratio -> ratio <= 100 ->
  exists label,
    Analysis.classify (Fin ratio) earlier = Some (Analysis.Class label) /\
    (label = "excellent" <-> 70 <= ratio) /\
    (label = "good" <-> 50 <= ratio /\ ratio < 70) /\
    (label = "fair" <-> 20 <= ratio /\ ratio < 50) /\
    (label = "poor" <-> 5 <= ratio /\ ratio < 20) /\
    (label = "trace" <-> ratio < 5).
Proof.
  intros H0 H100. unfold Analysis.classify. simpl.
  destruct (Qle_bool 70 ratio) eqn:E70; [|destruct (Qle_bool 50 ratio) eqn:E50;
    [|destruct (Qle_bool 20 ratio) eqn:E20; [|destruct (Qle_bool 5 ratio) eqn:E5]]];
    simpl;
    repeat match goal with
           | H : Qle_bool _ _ = true |- _ => apply Qle_bool_iff in H
           | H : Qle_bool ?a ?b = false |- _ =>
               assert (b < a)
                 by (apply Qnot_le_lt; intros Hc; apply Qle_bool_iff in Hc; congruence);
               clear H
           end;
    eexists; (split; [reflexivity|]);
    repeat split; intros; try discriminate; try lra.
Qed.

(** ** The public MS-only entry point *)

Section Specialised.
Context {Analyte : Type}.
Variable mz : Analyte -> Q.
Variable Grid : Type.
Variable assemble :
  list string -> list string -> string ->
  gmap string (Analysis.well_result Analyte) -> result Grid.

Lemma foldM_run_ext {A S} (f g : S -> A -> Analysis.run S) (l : list A) (s : S) :
  (forall s a, f s a = g s a) -> Analysis.foldM_run f s l = Analysis.foldM_run g s l.
Proof.
  intros Hfg. revert s. induction l as [|a l IH]; intros s; simpl; [done|].
  rewrite Hfg. destruct (g s a) as [out [s1|e]]; simpl; [|done]. by rewrite IH.
Qed.

Lemma ms_quantify_step_specialised layout st item :
  Analysis.ms_quantify_step mz layout "yield" "area" "standard" 0 st item
  = yield_area_standard_step mz layout st item.
Proof.
  unfold Analysis.ms_quantify_step, yield_area_standard_step. simpl.
  destruct (Analysis.match_mol item.2 _) as [m|]; [|done].
  destruct (Analysis.find_standard _) as [peak|]; simpl.
  - destruct (Analysis.read_local "yield_" _) as [y|e]; simpl; [|done].
    by destruct (Peak.analyte m).
  - destruct (Analysis.read_local "product_ratio" _) as [r|e]; simpl; [|done].
    destruct (Analysis.read_local "yield_" _) as [y|e]; simpl; [|done].
    by destruct (Peak.analyte m).
Qed.

End Specialised.

Lemma yield_area_standard_step_raises {Analyte} (mz : Analyte -> Q) layout st item out e :
  yield_area_standard_step mz layout st item = (out, Raise e) ->
  e = UnboundLocalError "product_ratio" \/ e = UnboundLocalError "yield_" \/
  e = AttributeError "mz".
Proof.
  unfold yield_area_standard_step.
  destruct (Analysis.match_mol item.2 _) as [m|]; [|discriminate].
  destruct (Analysis.find_standard _) as [peak|]; simpl.
  - destruct (Analysis.classify _ _) as [y|]; simpl; [|intros [= _ <-]; auto].
    destruct (Peak.analyte m); simpl; [discriminate|intros [= _ <-]; auto].
  - destruct (Analysis.product_ratio st) as [r|]; simpl; [|intros [= _ <-]; auto].
    destruct (Analysis.classify _ _) as [y|]; simpl; [|intros [= _ <-]; auto].
    destruct (Peak.analyte m); simpl; [discriminate|intros [= _ <-]; auto].
Qed.

Lemma foldM_run_raises {A S} (f : S -> A -> Analysis.run S) (P : exn -> Prop) (l : list A) :
  (forall s a out e, f s a = (out, Raise e) -> P e) ->
  forall s out e, Analysis.foldM_run f s l = (out, Raise e) -> P e.
Proof.
  intros Hf. induction l as [|a l IH]; intros s out e; simpl; [discriminate|].
  destruct (f s a) as [out1 [s1|e1]] eqn:Hstep.
  - simpl. destruct (Analysis.foldM_run f s1 l) as [out2 r] eqn:Hrest.
    intros [= _ ->]. eauto.
  - simpl. intros [= _ <-]. eauto.
Qed.

(** C10.  [calc_plate_ms_only_yield] is [__ms_only_quantify_plate] at
    mode "yield", quantification by "area", relative to "standard" and
    substrate index 0; for every input it returns what the pipeline
    without the conversion complement, the height attribute and the
    relative-to-all branch returns, and its quantification raises neither
    the complement's [TypeError] nor the invalid-mode [ValueError]. *)
Theorem calc_plate_ms_only_yield_fixed {Analyte} (mz : Analyte -> Q) (Grid : Type)
    (assemble : list string -> list string -> string ->
                gmap string (Analysis.well_result Analyte) -> result Grid)
    (ms_sequence : list (string * Analysis.MS_Injection Analyte))
    (layout : Analysis.Layout Analyte) (path : option string) :
  Analysis.calc_plate_ms_only_yield mz Grid assemble ms_sequence layout path
  = Analysis.ms_only_quantify_plate mz Grid assemble ms_sequence layout path
      "yield" 0 "area" "standard" /\
  Analysis.calc_plate_ms_only_yield mz Grid assemble ms_sequence layout path
  = plate_yield_area_standard mz Grid assemble ms_sequence layout path /\
  (forall out e,
     Analysis.ms_quantify mz ms_sequence layout "yield" "area" "standard" 0
       = (out, Raise e) ->
     e = UnboundLocalError "product_ratio" \/ e = UnboundLocalError "yield_" \/
     e = AttributeError "mz").
Proof.
  split; [reflexivity|]. split.
  - unfold Analysis.calc_plate_ms_only_yield, Analysis.ms_only_quantify_plate,
      Analysis.ms_quantify, plate_yield_area_standard.
    rewrite (foldM_run_ext _ (yield_area_standard_step mz layout))
      by apply ms_quantify_step_specialised.
    destruct (Analysis.foldM_run _ _ _) as [out [st|e]]; simpl; [|done].
    rewrite app_nil_r. by destruct (assemble _ _ _ _).
  - intros out e. unfold Analysis.ms_quantify.
    rewrite (foldM_run_ext _ (yield_area_standard_step mz layout))
      by apply ms_quantify_step_specialised.
    destruct (Analysis.foldM_run _ _ _) as [out1 [st|e1]] eqn:Hrun; simpl; [discriminate|].
    intros [= _ <-].
    eapply (foldM_run_raises _ _ _ (yield_area_standard_step_raises mz layout)); eauto.
Qed.

Ltac elem_cases H :=
  repeat (apply elem_of_cons in H as [H|H]); [..|by apply elem_of_nil in H].

Lemma extract_mass_spectrum_aligned_witness :
  exists key spectrum v,
    map (fun t => t / 60000) (Peak_Detection_MS.scan_index example_scans) !! 3%nat
      = Some key /\
    dict_get example_spectra key = Some spectrum /\
    [0; 1; 5; 4; 1; 0; 0] !! 3%nat = Some v /\
    dict_get spectrum 50 = Some v.
Proof.
  apply (extract_mass_spectrum_aligned example_find_peaks check_interval_spec
           example_scans [10001 # 10000; 10004 # 10000] [2; 3]%nat
           example_settings example_settings example_spectra
           ltac:(reflexivity)) with (index := 2%nat).
  - intros p p' k k' Hp Hp' Hk Hk' Heq.
    elem_cases Hp; elem_cases Hp'; subst; try done;
      simpl in Hk, Hk'; injection Hk as <-; injection Hk' as <-;
      unfold Qeq in Heq; simpl in Heq; lia.
  - intros t c t' c' Hc Hc' Heq. simpl in Hc, Hc'.
    elem_cases Hc; elem_cases Hc'; simplify_eq; try done;
      unfold Qeq in Heq; simpl in Heq; lia.
  - simpl. by left.
  - simpl. by left.
  - right. by left.
  - reflexivity.
Defined.



Lemma classify_partition_witness :
  exists label,
    Analysis.classify (Fin 61) None = Some (Analysis.Class label) /\
    (label = "excellent" <-> 70 <= 61) /\
    (label = "good" <-> 50 <= 61 /\ 61 < 70) /\
    (label = "fair" <-> 20 <= 61 /\ 61 < 50) /\
    (label = "poor" <-> 5 <= 61 /\ 61 < 20) /\
    (label = "trace" <-> 61 < 5).
Proof.
  apply (classify_partition 61 None); unfold Qle; simpl; lia.
Defined.

(** C2.  The code does not skip the well.  After printing that no
    standard was found it goes on to the classification: when A1 is the
    first well with an MS match, reading [product_ratio] raises and the
    whole-plate computation stops; when a well with a standard came
    before, A1 is entered with the class computed from that earlier
    well's ratio. *)
Theorem missing_standard_is_not_skipped :
  Analysis.ms_quantify example_mz [("s1"%string, injection_A1)] example_layout
    "yield" "area" "standard" 0
  = ([Analysis.No_standard_found "s1"], Raise (UnboundLocalError "product_ratio")) /\
  exists d,
    Analysis.ms_quantify example_mz example_ms_sequence example_layout
      "yield" "area" "standard" 0
    = ([Analysis.Report_line "s2" (Fin (25000 # 500)) 5 154;
        Analysis.No_standard_found "s1";
        Analysis.Report_line "s1" (Fin (25000 # 500)) 5 154], Ok d) /\
    d !! "A1"%string
    = Some (Analysis.Class "good", Fin 5, NaN, Analysis.Label_analyte "product"%string).
Proof.
  split; [reflexivity|].
  eexists. split; [vm_compute; reflexivity|]. vm_compute. reflexivity.
Qed.







(** ** Scenarios of the spec *)

(** A ratio of 61 is "good"; a ratio of exactly 70 is "excellent". *)
Example scenario_class_boundaries :
  Analysis.classify (Fin 61) None = Some (Analysis.Class "good") /\
  Analysis.classify (Fin 70) None = Some (Analysis.Class "excellent").
Proof. split; reflexivity. Qed.

(** A quantified value of 82.5 is recorded as 82.5 in yield mode and as
    17.5 in conversion mode. *)
Example scenario_yield_and_conversion :
  exists d_yield d_conv q,
    Analysis.match_and_quantify example_ms_sequence example_fid_sequence example_layout
      "yield" 0 = Ok d_yield /\
    Analysis.match_and_quantify example_ms_sequence example_fid_sequence example_layout
      "conv" 0 = Ok d_conv /\
    d_yield !! "A2"%string
    = Some (Analysis.Percentage (Fin (165 # 2)), Fin 5, Fin 7,
            Analysis.Label_analyte "product"%string) /\
    d_conv !! "A2"%string
    = Some (Analysis.Percentage (Fin q), Fin 5, Fin 7,
            Analysis.Label_analyte "substrate"%string) /\
    q == 35 # 2.
Proof.
  eexists _, _, _. split; [vm_compute; reflexivity|].
  split; [vm_compute; reflexivity|].
  split; [vm_compute; reflexivity|].
  split; [vm_compute; reflexivity|]. reflexivity.
Qed.

(** A well without an MS match holds the not-a-number entry. *)
Example scenario_unmatched_well :
  exists d,
    Analysis.match_and_quantify example_ms_sequence' example_fid_sequence example_layout
      "yield" 0 = Ok d /\
    d !! "A3"%string = Some Analysis.nan_result.
Proof. eexists. split; vm_compute; reflexivity. Qed.

(** * Further properties *)

(** ** Nearest samples on a growing time axis *)

Lemma Qabs_cases (x : Q) : (0 <= x /\ Qabs x == x) \/ (x < 0 /\ Qabs x == - x).
Proof.
  destruct (Qlt_le_dec x 0) as [H|H].
  - right. split; [done|]. apply Qabs_neg. lra.
  - left. split; [done|]. by apply Qabs_pos.
Qed.

(** X1.  On a strictly increasing time axis the index of the nearest
    sample does not decrease when the border time grows. *)
Theorem nearest_index_monotone (time_values : list Q) (b b' : Q) (i i' : nat) :
  strictly_increasing time_values ->
  b <= b' ->
  Peak_Detection_MS.nearest_index time_values b = Ok i ->
  Peak_Detection_MS.nearest_index time_values b' = Ok i' ->
  (i <= i')%nat.
Proof.
  intros Hinc Hb Hi Hi'.
  apply nearest_index_nearest in Hi as (t & Ht & Hmin).
  apply nearest_index_nearest in Hi' as (t' & Ht' & Hmin').
  destruct (decide (i <= i')%nat) as [|Hgt]; [done|]. exfalso.
  assert (Hlt : (i' < i)%nat) by lia.
  pose proof (Hinc i' i t' t Hlt Ht' Ht) as Htt.
  destruct (Hmin i' t' Ht') as [_ Hstrict]. specialize (Hstrict Hlt).
  destruct (Hmin' i t Ht) as [Hle _].
  destruct (Qabs_cases (t - b)) as [[? E1]|[? E1]],
           (Qabs_cases (t' - b)) as [[? E2]|[? E2]],
           (Qabs_cases (t' - b')) as [[? E3]|[? E3]],
           (Qabs_cases (t - b')) as [[? E4]|[? E4]];
    rewrite E1, E2 in Hstrict; rewrite E3, E4 in Hle; lra.
Qed.

(** X2.  On a strictly increasing time axis a border time that is a
    sample time is nearest to that very sample. *)
Theorem nearest_index_exact (time_values : list Q) (b : Q) (k : nat) (t : Q) :
  strictly_increasing time_values ->
  time_values !! k = Some t -> t == b ->
  Peak_Detection_MS.nearest_index time_values b = Ok k.
Proof.
  intros Hinc Hk Heq.
  destruct (Peak_Detection_MS.nearest_index time_values b) as [i|e] eqn:Hi.
  - apply nearest_index_nearest in Hi as (ti & Hti & Hmin).
    destruct (Hmin k t Hk) as [Hle _].
    assert (ti == b).
    { destruct (Qabs_cases (ti - b)) as [[? E1]|[? E1]],
               (Qabs_cases (t - b)) as [[? E2]|[? E2]];
        rewrite E1, E2 in Hle; lra. }
    f_equal. destruct (Nat.lt_trichotomy i k) as [Hlt|[->|Hlt]]; [|done|].
    + pose proof (Hinc i k ti t Hlt Hti Hk). lra.
    + pose proof (Hinc k i t ti Hlt Hk Hti). lra.
  - exfalso. unfold Peak_Detection_MS.nearest_index, Peak_Detection_MS.argmin in Hi.
    destruct time_values; [by rewrite lookup_nil in Hk|]. discriminate.
Qed.

(** ** When the areas can be computed *)

Lemma simpson_nonempty (y : list Q) :
  y <> [] -> is_ok (Peak_Detection_MS.simpson y) = true.
Proof.
  intros Hy. unfold Peak_Detection_MS.simpson.
  destruct (Nat.even (length y)); [|done].
  destruct (rev y) as [|y1 [|y2 [|y3 r]]] eqn:Hrev; try done.
  apply (f_equal (@rev Q)) in Hrev. rewrite rev_involutive in Hrev. done.
Qed.

Lemma simpson_empty : Peak_Detection_MS.simpson [] = Raise IndexError.
Proof. reflexivity. Qed.

Lemma mapM_is_ok {A B} (f : A -> result B) (l : list A) :
  is_ok (mapM f l) = true <-> Forall (fun x => is_ok (f x) = true) l.
Proof.
  induction l as [|a l IH]; simpl.
  - split; [by constructor|done].
  - rewrite Forall_cons. destruct (f a) as [b|e]; simpl.
    + rewrite <- IH. destruct (mapM f l); simpl; tauto.
    + split; [done|]. by intros [? _].
Qed.

Lemma nearest_index_nonempty (time_values : list Q) (b : Q) :
  time_values <> [] -> exists i, Peak_Detection_MS.nearest_index time_values b = Ok i.
Proof.
  intros H. unfold Peak_Detection_MS.nearest_index.
  destruct time_values; [done|]. simpl. eauto.
Qed.

Lemma chrom_lengths (c : Peak_Detection_MS.chromatogram) :
  length (Peak_Detection_MS.chrom_time c) = length c /\
  length (Peak_Detection_MS.chrom_intensities c) = length c.
Proof.
  unfold Peak_Detection_MS.chrom_time, Peak_Detection_MS.chrom_intensities.
  by rewrite !length_fmap.
Qed.

Lemma slice_nil_iff {A} (l : list A) (s e : nat) :
  (e < length l)%nat ->
  Peak_Detection_MS.slice l s e = [] <-> (e <= s)%nat.
Proof.
  intros He. rewrite <- length_zero_iff_nil, slice_length by lia. lia.
Qed.

(** X3.  [__calculate_areas] on a non-empty chromatogram succeeds exactly
    when, for every border pair, the sample nearest to the left border
    comes strictly before the sample nearest to the right border; a
    border pair whose two borders snap to the same sample, or to samples
    in the wrong order, raises [IndexError] for the whole call. *)
Theorem calculate_areas_succeeds_iff (c : Peak_Detection_MS.chromatogram)
    (boarders : list (Q * Q)) :
  c <> [] ->
  (is_ok (Peak_Detection_MS.calculate_areas c boarders) = true <->
   forall b start_idx end_idx, b ∈ boarders ->
     Peak_Detection_MS.nearest_index (Peak_Detection_MS.chrom_time c) b.1 = Ok start_idx ->
     Peak_Detection_MS.nearest_index (Peak_Detection_MS.chrom_time c) b.2 = Ok end_idx ->
     (start_idx < end_idx)%nat) /\
  (forall b start_idx end_idx,
     Peak_Detection_MS.nearest_index (Peak_Detection_MS.chrom_time c) b.1 = Ok start_idx ->
     Peak_Detection_MS.nearest_index (Peak_Detection_MS.chrom_time c) b.2 = Ok end_idx ->
     (end_idx <= start_idx)%nat ->
     Peak_Detection_MS.peak_area c b = Raise IndexError).
Proof.
  intros Hc.
  assert (Htime : Peak_Detection_MS.chrom_time c <> []).
  { intros H. apply (f_equal length) in H.
    destruct (chrom_lengths c) as [Hl _]. rewrite Hl in H. by destruct c. }
  assert (Harea : forall b s e,
            Peak_Detection_MS.nearest_index (Peak_Detection_MS.chrom_time c) b.1 = Ok s ->
            Peak_Detection_MS.nearest_index (Peak_Detection_MS.chrom_time c) b.2 = Ok e ->
            ((s < e)%nat -> is_ok (Peak_Detection_MS.peak_area c b) = true) /\
            ((e <= s)%nat -> Peak_Detection_MS.peak_area c b = Raise IndexError)).
  { intros b s e Hs He. unfold Peak_Detection_MS.peak_area. rewrite Hs, He. simpl.
    assert (Hlen : (e < length (Peak_Detection_MS.chrom_intensities c))%nat).
    { apply nearest_index_lt in He.
      destruct (chrom_lengths c) as [H1 H2]. rewrite H1 in He. by rewrite H2. }
    split; intros Hse.
    - apply simpson_nonempty. rewrite slice_nil_iff by done. lia.
    - apply (slice_nil_iff (Peak_Detection_MS.chrom_intensities c) s e Hlen) in Hse.
      by rewrite Hse. }
  split.
  - unfold Peak_Detection_MS.calculate_areas. rewrite mapM_is_ok, Forall_forall.
    split.
    + intros Hall b s e Hb Hs He.
      destruct (decide (s < e)%nat) as [|Hge]; [done|]. exfalso.
      destruct (Harea b s e Hs He) as [_ Hraise].
      specialize (Hall b Hb). rewrite Hraise in Hall by lia. done.
    + intros Hall b Hb.
      destruct (nearest_index_nonempty _ b.1 Htime) as [s Hs].
      destruct (nearest_index_nonempty _ b.2 Htime) as [e He].
      apply (Harea b s e Hs He). eauto.
  - intros b s e Hs He. by apply Harea.
Qed.

(** ** Areas of non-negative, scaled and flat signals *)

Lemma simpson_nonneg (y : list Q) (a : Q) :
  Forall (fun v => 0 <= v) y -> Peak_Detection_MS.simpson y = Ok a -> 0 <= a.
Proof.
  intros Hy. unfold Peak_Detection_MS.simpson, Peak_Detection_MS.basic_simpson.
  pose proof (simpson_panels_nonneg y Hy) as Hp.
  destruct (Nat.even (length y)) eqn:Heven; [|intros [= <-]; lra].
  destruct (rev y) as [|y1 [|y2 [|y3 r]]] eqn:Hrev.
  - discriminate.
  - intros [= <-]. lra.
  - intros [= <-]. apply (f_equal (@rev Q)) in Hrev. rewrite rev_involutive in Hrev.
    subst y. simpl in Hy. apply Forall_cons in Hy as [? Hy].
    apply Forall_cons in Hy as [? _]. lra.
  - intros [= <-].
    apply (f_equal (@rev Q)) in Hrev. rewrite rev_involutive in Hrev. simpl in Hrev.
    destruct r as [|x r'].
    { subst y. discriminate. }
    simpl in Hrev. rewrite <- !app_assoc in Hrev. simpl in Hrev.
    set (init := rev r') in *.
    assert (Hinit : Nat.even (length init) = true).
    { rewrite Hrev, length_app in Heven. simpl in Heven.
      rewrite Nat.even_add in Heven. by destruct (Nat.even (length init)). }
    apply Nat.even_spec in Hinit as [m Hm].
    rewrite Hrev in Hy, Hp |- *.
    rewrite (simpson_panels_split m init x [y3; y2; y1] Hm) in Hp |- *.
    rewrite simpson_panels_cons2 in Hp |- *.
    change (Peak_Detection_MS.simpson_panels [y2; y1]) with 0 in Hp |- *.
    apply Forall_app in Hy as [Hinit Hy].
    apply Forall_cons in Hy as [Hx Hy]. apply Forall_cons in Hy as [H3 Hy].
    apply Forall_cons in Hy as [H2 Hy]. apply Forall_cons in Hy as [H1 _].
    assert (0 <= Peak_Detection_MS.simpson_panels (init ++ [x])).
    { apply simpson_panels_nonneg, Forall_app. split; [done|]. by apply Forall_singleton. }
    lra.
Qed.

Lemma pick_peaks_stored_area {Analyte} find_peaks check_interval c scans s
    (peaks : list (Q * MS_Peak Analyte)) k p :
  Peak_Detection_MS.pick_peaks find_peaks check_interval c scans s = Ok peaks ->
  (k, p) ∈ peaks ->
  Peak_Detection_MS.peak_area c (Peak.boarders p) = Ok (Peak.area p).
Proof.
  intros Hpick Hin.
  apply pick_peaks_Ok in Hpick
    as (idx & rts & hs & ws & bs & areas & s1 & spectra & s2 & Hdet & _ & Hinit).
  apply detect_peaks_scipy_Ok in Hdet as [Hareas _].
  apply initialize_peaks_keyed in Hinit as [Hkeyed _].
  destruct (Hkeyed k p Hin) as [_ (i & rt_i & _ & _ & _ & _ & Hb & Ha)].
  apply mapM_Ok_lookup in Hareas as [_ Hareas]. eauto.
Qed.

(** X4.  On a chromatogram without negative intensities every peak that
    [pick_peaks] returns has a non-negative area, whatever the number of
    samples between its borders. *)
Theorem pick_peaks_area_nonneg {Analyte}
    (find_peaks : list Q -> Peak_Detection_MS.find_peaks_args ->
                  list nat * Peak_Detection_MS.peak_properties)
    (check_interval : nat -> nat -> nat -> bool)
    (c : Peak_Detection_MS.chromatogram) (scans : Peak_Detection_MS.Scans)
    (s : Peak_Detection_MS.Analysis_Settings)
    (peaks : list (Q * MS_Peak Analyte)) (k : Q) (p : MS_Peak Analyte) :
  Forall (fun v => 0 <= v) (Peak_Detection_MS.chrom_intensities c) ->
  Peak_Detection_MS.pick_peaks find_peaks check_interval c scans s = Ok peaks ->
  (k, p) ∈ peaks ->
  0 <= Peak.area p.
Proof.
  intros Hpos Hpick Hin.
  apply (pick_peaks_stored_area _ _ _ _ _ _ _ _ Hpick) in Hin.
  apply peak_area_Ok in Hin as (s0 & e0 & _ & _ & Hsim).
  eapply simpson_nonneg; [|exact Hsim]. by apply slice_Forall.
Qed.

Lemma simpson_panels_scale (k : Q) (y : list Q) :
  Peak_Detection_MS.simpson_panels (map (Qmult k) y)
  == k * Peak_Detection_MS.simpson_panels y.
Proof.
  assert (H : forall n (l : list Q), (length l <= n)%nat ->
            Peak_Detection_MS.simpson_panels (map (Qmult k) l)
            == k * Peak_Detection_MS.simpson_panels l).
  { induction n as [|n IH]; intros l Hlen.
    - destruct l; [simpl; ring|simpl in Hlen; lia].
    - destruct l as [|y0 [|y1 [|y2 rest]]]; try (simpl; ring).
      change (map (Qmult k) (y0 :: y1 :: y2 :: rest))
        with (k * y0 :: k * y1 :: map (Qmult k) (y2 :: rest)).
      change (map (Qmult k) (y2 :: rest)) with (k * y2 :: map (Qmult k) rest).
      rewrite !simpson_panels_cons2.
      change (k * y2 :: map (Qmult k) rest) with (map (Qmult k) (y2 :: rest)).
      rewrite (IH (y2 :: rest)) by (simpl in *; lia). ring. }
  eauto.
Qed.

Lemma simpson_scale (k : Q) (y : list Q) (a : Q) :
  Peak_Detection_MS.simpson y = Ok a ->
  exists a', Peak_Detection_MS.simpson (map (Qmult k) y) = Ok a' /\ a' == k * a.
Proof.
  unfold Peak_Detection_MS.simpson, Peak_Detection_MS.basic_simpson.
  rewrite length_map, <- map_rev.
  destruct (Nat.even (length y)).
  - destruct (rev y) as [|y1 [|y2 [|y3 r]]]; simpl; [discriminate|..];
      intros [= <-]; eexists; (split; [reflexivity|]);
      rewrite ?simpson_panels_scale; ring.
  - intros [= <-]. eexists. split; [reflexivity|].
    rewrite simpson_panels_scale. ring.
Qed.

Lemma scale_intensities_time k c :
  Peak_Detection_MS.chrom_time (scale_intensities k c) = Peak_Detection_MS.chrom_time c.
Proof.
  unfold Peak_Detection_MS.chrom_time, scale_intensities.
  rewrite <- list_fmap_compose. by apply list_fmap_ext.
Qed.

Lemma scale_intensities_intensities k c :
  Peak_Detection_MS.chrom_intensities (scale_intensities k c)
  = map (Qmult k) (Peak_Detection_MS.chrom_intensities c).
Proof.
  unfold Peak_Detection_MS.chrom_intensities, scale_intensities.
  rewrite <- !list_fmap_compose. by apply list_fmap_ext.
Qed.

Lemma slice_map {A B} (f : A -> B) (l : list A) (s e : nat) :
  Peak_Detection_MS.slice (map f l) s e = map f (Peak_Detection_MS.slice l s e).
Proof. unfold Peak_Detection_MS.slice. by rewrite <- fmap_drop, <- fmap_take. Qed.

(** X5.  [__calculate_areas] is homogeneous in the intensities:
    multiplying every intensity by [k] leaves the integration ranges
    unchanged and multiplies every area by [k]. *)
Theorem calculate_areas_scale (k : Q) (c : Peak_Detection_MS.chromatogram)
    (boarders : list (Q * Q)) (areas : list Q) :
  Peak_Detection_MS.calculate_areas c boarders = Ok areas ->
  exists areas',
    Peak_Detection_MS.calculate_areas (scale_intensities k c) boarders = Ok areas' /\
    Forall2 (fun a a' => a' == k * a) areas areas'.
Proof.
  unfold Peak_Detection_MS.calculate_areas.
  revert areas. induction boarders as [|b bs IH]; intros areas H; simpl in *.
  - injection H as <-. exists []. split; [done|constructor].
  - inv_bind H. rename a into a0. inv_bind H. rename a into rest.
    injection H as <-.
    destruct (IH rest Ha0) as (rest' & -> & Hrest). simpl.
    unfold Peak_Detection_MS.peak_area in Ha |- *.
    rewrite scale_intensities_time, scale_intensities_intensities.
    destruct (Peak_Detection_MS.nearest_index _ b.1) as [s0|]; [|discriminate].
    destruct (Peak_Detection_MS.nearest_index _ b.2) as [e0|]; [|discriminate].
    simpl in *. rewrite slice_map.
    destruct (simpson_scale k _ _ Ha) as (a' & -> & Ha'). simpl.
    eexists. split; [reflexivity|]. by constructor.
Qed.

Lemma simpson_panels_replicate (h : Q) (m : nat) :
  Peak_Detection_MS.simpson_panels (replicate (2 * m + 1) h)
    == 6 * inject_Z (Z.of_nat m) * h /\
  Peak_Detection_MS.simpson_panels (replicate (2 * m + 2) h)
    == 6 * inject_Z (Z.of_nat m) * h.
Proof.
  induction m as [|m [IH1 IH2]].
  - change (Peak_Detection_MS.simpson_panels (replicate (2 * 0 + 1) h)) with 0.
    change (Peak_Detection_MS.simpson_panels (replicate (2 * 0 + 2) h)) with 0.
    change (inject_Z (Z.of_nat 0)) with 0. split; ring.
  - replace (2 * S m + 1)%nat with (S (S (2 * m + 1))) by lia.
    replace (2 * S m + 2)%nat with (S (S (2 * m + 2))) by lia.
    replace (2 * m + 1)%nat with (S (2 * m)) in * by lia.
    replace (2 * m + 2)%nat with (S (S (2 * m))) in * by lia.
    cbn [replicate] in *.
    assert (E : inject_Z (Z.of_nat (S m)) == inject_Z (Z.of_nat m) + 1).
    { rewrite Nat2Z.inj_succ, <- Z.add_1_r, inject_Z_plus. reflexivity. }
    split.
    + rewrite simpson_panels_cons2, IH1, E. ring.
    + rewrite simpson_panels_cons2, IH2, E. ring.
Qed.

Lemma rev_replicate {A} (n : nat) (x : A) : rev (replicate n x) = replicate n x.
Proof.
  induction n as [|n IH]; [done|].
  simpl. rewrite IH. symmetry. apply replicate_S_end.
Qed.

(** Simpson's rule is exact on a flat signal. *)
Lemma simpson_flat (h : Q) (n : nat) (a : Q) :
  Peak_Detection_MS.simpson (replicate n h) = Ok a ->
  a == h * inject_Z (Z.of_nat n - 1).
Proof.
  unfold Peak_Detection_MS.simpson, Peak_Detection_MS.basic_simpson.
  rewrite length_replicate, rev_replicate.
  destruct (Nat.even n) eqn:Heven.
  - apply Nat.even_spec in Heven as [m ->].
    destruct m as [|[|m]].
    + discriminate.
    + simpl. intros [= <-]. change (inject_Z (Z.of_nat 2 - 1)) with 1. ring.
    + destruct (simpson_panels_replicate h (S m)) as [_ Hp].
      replace (2 * S (S m))%nat with (2 * S m + 2)%nat by lia.
      set (N := (2 * S m + 2)%nat) in *.
      assert (HN : N = S (S (S (2 * m + 1)))) by (unfold N; lia).
      set (P := Peak_Detection_MS.simpson_panels (replicate N h)) in *.
      rewrite HN. cbn [replicate]. intros [= <-]. rewrite Hp.
      assert (E : forall z : Z, z = (2 * Z.of_nat (S m) + 1)%Z ->
                  inject_Z z == 2 * inject_Z (Z.of_nat (S m)) + 1).
      { intros z ->. rewrite inject_Z_plus, inject_Z_mult. reflexivity. }
      match goal with |- context [inject_Z ?z] => rewrite (E z) by lia end. field.
  - assert (Hodd : Nat.odd n = true) by (by rewrite <- Nat.negb_even, Heven).
    apply Nat.odd_spec in Hodd as [m ->].
    destruct (simpson_panels_replicate h m) as [Hp _].
    intros [= <-]. rewrite Hp.
    assert (E : forall z : Z, z = (2 * Z.of_nat m)%Z ->
                inject_Z z == 2 * inject_Z (Z.of_nat m)).
    { intros z ->. rewrite inject_Z_mult. reflexivity. }
    match goal with |- context [inject_Z ?z] => rewrite (E z) by lia end. field.
Qed.

(** X6.  On a flat signal of height [h] the area between two borders is
    [h] times the number of sample intervals in the range
    [start_idx : end_idx], that is [h * (end_idx - start_idx - 1)]: the
    unit is intensity times samples, and the sample nearest to the right
    border is not part of the range. *)
Theorem peak_area_flat (c : Peak_Detection_MS.chromatogram) (h : Q)
    (b : Q * Q) (a : Q) :
  Forall (fun v => v = h) (Peak_Detection_MS.chrom_intensities c) ->
  Peak_Detection_MS.peak_area c b = Ok a ->
  exists start_idx end_idx,
    Peak_Detection_MS.nearest_index (Peak_Detection_MS.chrom_time c) b.1 = Ok start_idx /\
    Peak_Detection_MS.nearest_index (Peak_Detection_MS.chrom_time c) b.2 = Ok end_idx /\
    (start_idx < end_idx)%nat /\
    a == h * inject_Z (Z.of_nat (end_idx - start_idx) - 1).
Proof.
  intros Hflat Harea. unfold Peak_Detection_MS.peak_area in Harea.
  destruct (Peak_Detection_MS.nearest_index _ b.1) as [s0|] eqn:Hs; [|discriminate].
  destruct (Peak_Detection_MS.nearest_index _ b.2) as [e0|] eqn:He; [|discriminate].
  simpl in Harea. exists s0, e0. split; [done|]. split; [done|].
  assert (Hlen : (e0 < length (Peak_Detection_MS.chrom_intensities c))%nat).
  { apply nearest_index_lt in He.
    destruct (chrom_lengths c) as [H1 H2]. rewrite H1 in He. by rewrite H2. }
  assert (Hslice : Peak_Detection_MS.slice (Peak_Detection_MS.chrom_intensities c) s0 e0
                   = replicate (e0 - s0) h).
  { rewrite <- (slice_length (Peak_Detection_MS.chrom_intensities c) s0 e0) by lia.
    symmetry. apply replicate_as_Forall. split; [done|].
    apply slice_Forall. eapply Forall_impl; [exact Hflat|]. by intros v ->. }
  rewrite Hslice in Harea. split.
  - destruct (decide (s0 < e0)%nat) as [|Hge]; [done|].
    replace (e0 - s0)%nat with 0%nat in Harea by lia. discriminate.
  - by apply simpson_flat.
Qed.

(** ** When peak picking raises *)

(** X7.  A chromatogram without a strictly positive intensity makes
    [pick_peaks] raise, whatever the settings hold: the default of the
    minimum height is computed before the settings are consulted. *)
Theorem pick_peaks_needs_positive_sample {Analyte}
    (find_peaks : list Q -> Peak_Detection_MS.find_peaks_args ->
                  list nat * Peak_Detection_MS.peak_properties)
    (check_interval : nat -> nat -> nat -> bool)
    (c : Peak_Detection_MS.chromatogram) (scans : Peak_Detection_MS.Scans)
    (s : Peak_Detection_MS.Analysis_Settings) :
  Forall (fun v => v <= 0) (Peak_Detection_MS.chrom_intensities c) ->
  Peak_Detection_MS.pick_peaks (Analyte := Analyte) find_peaks check_interval c scans s
  = Raise (ValueError
      "zero-size array to reduction operation minimum which has no identity").
Proof.
  intros Hneg. unfold Peak_Detection_MS.pick_peaks, Peak_Detection_MS.detect_peaks_scipy.
  assert (Hfilter : filter (fun y => negb (Qle_bool y 0) = true)
                      (Peak_Detection_MS.chrom_intensities c) = []).
  { induction Hneg as [|v l Hv Hl IH]; [done|].
    rewrite filter_cons. destruct (decide _) as [Hd|_]; [|done].
    apply Qle_bool_iff in Hv. rewrite Hv in Hd. discriminate. }
  by rewrite Hfilter.
Qed.

Lemma np_max_is_ok (l : list Q) : is_ok (Peak_Detection_MS.np_max l) = true <-> l <> [].
Proof. destruct l; simpl; split; done. Qed.

Lemma initialize_peak_is_ok {Analyte} hs ws bs spectra areas
    (peaks : list (Q * MS_Peak Analyte)) i rt_i :
  is_ok (Peak_Detection_MS.initialize_peak hs ws bs spectra areas peaks (i, rt_i)) = true
  <-> constructible hs ws bs spectra areas i rt_i.
Proof.
  unfold Peak_Detection_MS.initialize_peak, constructible, index_get, dict_getitem.
  destruct (areas !! i) eqn:Ha; simpl.
  2:{ apply lookup_ge_None in Ha. split; [done|]. intros [? _]. lia. }
  apply lookup_lt_Some in Ha.
  destruct (dict_get spectra rt_i) as [sp|] eqn:Hsp; simpl.
  2:{ split; [done|]. by intros (_ & (? & ? & _) & _). }
  destruct sp as [|x sp]; simpl.
  { split; [done|]. intros (_ & (? & [= <-] & ?) & _). done. }
  destruct (hs !! i) eqn:Hh; simpl.
  2:{ apply lookup_ge_None in Hh. split; [done|]. intros (_ & _ & ? & _). lia. }
  apply lookup_lt_Some in Hh.
  destruct (ws !! i) eqn:Hw; simpl.
  2:{ apply lookup_ge_None in Hw. split; [done|]. intros (_ & _ & _ & ? & _). lia. }
  apply lookup_lt_Some in Hw.
  destruct (bs !! i) eqn:Hb; simpl.
  2:{ apply lookup_ge_None in Hb. split; [done|]. intros (_ & _ & _ & _ & ?). lia. }
  apply lookup_lt_Some in Hb.
  split; [|done]. intros _. repeat split; try done. eauto.
Qed.

(** X8.  [__initialize_peaks] returns a dictionary exactly when every
    detected peak has an entry in the arrays of heights, widths, borders
    and areas and a non-empty spectrum under its retention time;
    otherwise it raises. *)
Theorem initialize_peaks_succeeds_iff {Analyte}
    (peak_rts peak_heights peak_widths : list Q) (peak_boarders : list (Q * Q))
    (mass_spectra : list (Q * list (Q * Q))) (peak_areas : list Q) :
  is_ok (Peak_Detection_MS.initialize_peaks (Analyte := Analyte) peak_rts peak_heights
           peak_widths peak_boarders mass_spectra peak_areas) = true
  <-> forall i rt_i, peak_rts !! i = Some rt_i ->
        constructible peak_heights peak_widths peak_boarders mass_spectra peak_areas i rt_i.
Proof.
  unfold Peak_Detection_MS.initialize_peaks. split.
  - intros Hok i rt_i Hi.
    destruct (foldM _ _ _) as [peaks|e] eqn:Hrun; [|done].
    eapply (foldM_Ok_step _ _ (i, rt_i)) in Hrun as (d1 & d2 & Hstep);
      [|by apply elem_of_enumerate].
    apply (initialize_peak_is_ok _ _ _ _ _ d1). by rewrite Hstep.
  - intros Hall.
    destruct (foldM_total
                (Peak_Detection_MS.initialize_peak (Analyte := Analyte) peak_heights
                   peak_widths peak_boarders mass_spectra peak_areas)
                (imap (fun i rt => (i, rt)) peak_rts)) with (s := @nil (Q * MS_Peak Analyte))
      as [peaks ->]; [|done].
    intros d [i rt_i] Hin. apply elem_of_enumerate in Hin.
    apply Hall in Hin. apply (initialize_peak_is_ok _ _ _ _ _ d) in Hin.
    destruct (Peak_Detection_MS.initialize_peak _ _ _ _ _ _ _); [eauto|done].
Qed.

(** ** Primary peaks without a contributing channel *)

Lemma initial_spectra_empty (peak_rts : list Q) (acc : list (Q * list (Q * Q))) key spectrum :
  dict_get (foldl (fun ms i => dict_set ms i []) acc peak_rts) key = Some spectrum ->
  dict_get acc key = Some spectrum \/ spectrum = [].
Proof.
  revert acc. induction peak_rts as [|rt l IH]; intros acc H; simpl in H; [by left|].
  apply IH in H as [H|H]; [|by right].
  rewrite dict_get_set in H. destruct (Qeq_bool rt key); [|by left].
  injection H as <-. by right.
Qed.

Lemma contributes_Qeq find_peaks check_interval prominence columns rts peak_indices k k' :
  k == k' ->
  contributes find_peaks check_interval prominence columns rts peak_indices k ->
  contributes find_peaks check_interval prominence columns rts peak_indices k'.
Proof.
  intros Hk (t & ch & i & p & k0 & ? & ? & ? & ? & ? & Hk0).
  exists t, ch, i, p, k0. repeat split; try done. by rewrite Hk0.
Qed.

Lemma extract_mass_spectrum_contributed find_peaks check_interval scans peak_rts
    peak_indices s ms s' :
  Peak_Detection_MS.extract_mass_spectrum find_peaks check_interval scans
    peak_rts peak_indices s = Ok (ms, s') ->
  spectra_contributed find_peaks check_interval
    (Peak_Detection_MS.pop s "trace_prominence" 220).1
    (Peak_Detection_MS.scan_columns scans)
    (map (fun t => t / 60000) (Peak_Detection_MS.scan_index scans)) peak_indices ms.
Proof.
  unfold Peak_Detection_MS.extract_mass_spectrum.
  destruct (Peak_Detection_MS.pop s "trace_prominence" 220) as [prominence s1].
  simpl. intros H. inv_bind H. injection H as -> ->.
  set (rts := map (fun t => t / 60000) (Peak_Detection_MS.scan_index scans)) in *.
  set (columns := Peak_Detection_MS.scan_columns scans) in *.
  revert Ha.
  apply (foldM_preserve _
           (spectra_contributed find_peaks check_interval prominence columns rts
              peak_indices)).
  - intros m [t ch] m' Hcol Hm. unfold Peak_Detection_MS.extract_trace.
    destruct (find_peaks ch _) as [indices props] eqn:Hfp.
    apply foldM_preserve; [|done].
    intros m1 p m1' Hp Hm1. apply foldM_preserve; [|done].
    intros m2 i m2' Hi Hm2.
    destruct (check_interval i p 5%nat) eqn:Hchk; [|by intros [= <-]].
    intros Hrec. unfold Peak_Detection_MS.record_channel in Hrec.
    inv_bind Hrec. rename a into k. apply index_get_Ok in Ha.
    inv_bind Hrec. inv_bind Hrec. injection Hrec as <-.
    intros key sp. rewrite dict_get_set.
    destruct (Qeq_bool k key) eqn:Hk; [|by apply Hm2].
    intros _ _. apply Qeq_bool_iff in Hk.
    exists t, ch, i, p, k. rewrite Hfp. simpl. auto 10.
  - intros key sp Hget Hne.
    apply initial_spectra_empty in Hget as [Hget|Hget]; [discriminate|done].
Qed.

(** X9.  [pick_peaks] returns a dictionary only if every detected peak
    has a contributing channel: some mass trace with a peak of its own
    inside the window of a primary peak at the same time.  A detected
    peak without one is left with an empty spectrum, on which
    [__initialize_peaks] raises. *)
Theorem pick_peaks_needs_contributing_channel {Analyte}
    (find_peaks : list Q -> Peak_Detection_MS.find_peaks_args ->
                  list nat * Peak_Detection_MS.peak_properties)
    (check_interval : nat -> nat -> nat -> bool)
    (c : Peak_Detection_MS.chromatogram) (scans : Peak_Detection_MS.Scans)
    (s : Peak_Detection_MS.Analysis_Settings)
    (peaks : list (Q * MS_Peak Analyte)) :
  Peak_Detection_MS.pick_peaks find_peaks check_interval c scans s = Ok peaks ->
  exists idx rts hs ws bs areas s1,
    Peak_Detection_MS.detect_peaks_scipy find_peaks c s
      = Ok (idx, rts, hs, ws, bs, areas, s1) /\
    forall rt_i, rt_i ∈ rts ->
      contributes find_peaks check_interval
        (Peak_Detection_MS.pop s1 "trace_prominence" 220).1
        (Peak_Detection_MS.scan_columns scans)
        (map (fun t => t / 60000) (Peak_Detection_MS.scan_index scans)) idx rt_i.
Proof.
  intros Hpick.
  apply pick_peaks_Ok in Hpick
    as (idx & rts & hs & ws & bs & areas & s1 & spectra & s2 & Hdet & Hext & Hinit).
  exists idx, rts, hs, ws, bs, areas, s1. split; [done|].
  intros rt_i Hin. apply list_elem_of_lookup in Hin as [i Hi].
  apply extract_mass_spectrum_contributed in Hext.
  assert (Hok : is_ok (Peak_Detection_MS.initialize_peaks (Analyte := Analyte)
                         rts hs ws bs spectra areas) = true) by (by rewrite Hinit).
  unfold Peak_Detection_MS.initialize_peaks in Hok.
  destruct (foldM _ _ _) as [d|e] eqn:Hrun; [|done].
  eapply (foldM_Ok_step _ _ (i, rt_i)) in Hrun as (d1 & d2 & Hstep);
    [|by apply elem_of_enumerate].
  assert (Hc : constructible hs ws bs spectra areas i rt_i).
  { apply (initialize_peak_is_ok _ _ _ _ _ d1). by rewrite Hstep. }
  destruct Hc as (_ & (sp & Hsp & Hne) & _). eauto.
Qed.

(** ** Rounded retention times and relative intensities *)




Lemma foldl_max_spec (l : list Q) (x : Q) :
  let m := foldl (fun m y => if Qle_bool y m then m else y) x l in
  (m = x \/ m ∈ l) /\ x <= m /\ Forall (fun y => y <= m) l.
Proof.
  revert x. induction l as [|y l IH]; intros x; simpl.
  - split; [by left|]. split; [lra|constructor].
  - destruct (Qle_bool y x) eqn:Hle.
    + apply Qle_bool_iff in Hle. destruct (IH x) as ([->|Hin] & Hx & Hall).
      * split; [by left|]. split; [done|]. by constructor.
      * split; [right; by right|]. split; [done|]. constructor; [lra|done].
    + assert (x < y).
      { apply Qnot_le_lt. intros Hc. apply Qle_bool_iff in Hc. congruence. }
      destruct (IH y) as ([->|Hin] & Hy & Hall).
      * split; [right; by left|]. split; [lra|]. constructor; [lra|done].
      * split; [right; by right|]. split; [lra|]. by constructor.
Qed.

Lemma np_max_spec (l : list Q) (top : Q) :
  Peak_Detection_MS.np_max l = Ok top -> top ∈ l /\ Forall (fun y => y <= top) l.
Proof.
  destruct l as [|x l]; simpl; [discriminate|]. intros [= <-].
  destruct (foldl_max_spec l x) as ([->|Hin] & Hx & Hall).
  - split; [by left|]. constructor; [lra|done].
  - split; [by right|]. by constructor.
Qed.

Lemma zip_spectrum {A B C} (f : B -> C) (l : list (A * B)) :
  zip (zip l.*1 l.*2) (map f l.*2) = map (fun e : A * B => (e.1, e.2, f e.2)) l.
Proof. induction l as [|[a b] l IH]; simpl; [done|]. f_equal. apply IH. Qed.

Lemma initialize_peak_normalised {Analyte} rts hs ws bs spectra areas
    (peaks peaks' : list (Q * MS_Peak Analyte)) i rt_i :
  rts !! i = Some rt_i ->
  (forall k p, (k, p) ∈ peaks -> normalised rts spectra p) ->
  Peak_Detection_MS.initialize_peak hs ws bs spectra areas peaks (i, rt_i) = Ok peaks' ->
  forall k p, (k, p) ∈ peaks' -> normalised rts spectra p.
Proof.
  intros Hi Hinv H. unfold Peak_Detection_MS.initialize_peak in H.
  inv_bind H. inv_bind H. rename a0 into spectrum.
  inv_bind H. rename a0 into top.
  inv_bind H. inv_bind H. inv_bind H. injection H as <-.
  intros k p Hin. apply elem_of_dict_set in Hin as [Hin|[-> _]]; [eauto|].
  exists rt_i, spectrum, top.
  split; [by eapply list_elem_of_lookup_2|].
  unfold dict_getitem in Ha0.
  destruct (dict_get spectra rt_i); [|discriminate]. injection Ha0 as ->.
  split; [done|]. split; [done|].
  unfold MS_Peak_init. simpl. unfold dict_keys, dict_values.
  by rewrite zip_spectrum.
Qed.

Lemma relative_intensity_bounded (top y : Q) :
  0 < top -> y <= top ->
  exists q, relative_intensity top y = Fin q /\ q <= 100 /\ (y == top -> q == 100).
Proof.
  intros Htop Hy. unfold relative_intensity, pf_div, pf_mul, Qis_zero.
  assert (Qeq_bool top 0 = false) as ->.
  { destruct (Qeq_bool top 0) eqn:E; [|done]. apply Qeq_bool_iff in E. lra. }
  eexists. split; [reflexivity|].
  assert (Hdiv : y / top <= 1) by (apply Qle_shift_div_r; lra).
  split; [lra|]. intros ->. field. lra.
Qed.

(** X11.  Every peak that [__initialize_peaks] returns carries a
    non-empty mass spectrum that lists the channels of a detected peak's
    spectrum with their intensities; when its largest intensity is
    positive, every relative intensity is a number of at most 100, and it
    is 100 for a channel of the largest intensity. *)
Theorem initialize_peaks_relative_intensities {Analyte}
    (peak_rts peak_heights peak_widths : list Q) (peak_boarders : list (Q * Q))
    (mass_spectra : list (Q * list (Q * Q))) (peak_areas : list Q)
    (peaks : list (Q * MS_Peak Analyte)) (k : Q) (p : MS_Peak Analyte) :
  Peak_Detection_MS.initialize_peaks peak_rts peak_heights peak_widths peak_boarders
    mass_spectra peak_areas = Ok peaks ->
  (k, p) ∈ peaks ->
  exists rt_i spectrum top,
    rt_i ∈ peak_rts /\
    dict_get mass_spectra rt_i = Some spectrum /\
    Peak.mass_spectrum p
    = map (fun e : Q * Q => (e.1, e.2, relative_intensity top e.2)) spectrum /\
    top ∈ dict_values spectrum /\
    Forall (fun y => y <= top) (dict_values spectrum) /\
    (0 < top ->
     forall mz y rel, (mz, y, rel) ∈ Peak.mass_spectrum p ->
       exists q, rel = Fin q /\ q <= 100 /\ (y == top -> q == 100)).
Proof.
  intros Hinit Hin.
  assert (Hnorm : normalised peak_rts mass_spectra p).
  { revert k p Hin. unfold Peak_Detection_MS.initialize_peaks in Hinit. revert Hinit.
    apply (foldM_preserve _
             (fun d => forall k p, (k, p) ∈ d -> normalised peak_rts mass_spectra p)).
    - intros d [i rt_i] d' Hi Hd Hstep. apply elem_of_enumerate in Hi.
      by eapply initialize_peak_normalised.
    - intros k p Hin. by apply elem_of_nil in Hin. }
  destruct Hnorm as (rt_i & spectrum & top & Hrt & Hsp & Hmax & Hms).
  apply np_max_spec in Hmax as [Htop Hall].
  exists rt_i, spectrum, top. repeat split; try done.
  intros Hpos mz y rel Hrel. rewrite Hms in Hrel.
  apply list_elem_of_fmap in Hrel as ([mz' y'] & [= -> -> ->] & He).
  simpl. apply relative_intensity_bounded; [done|].
  rewrite Forall_forall in Hall. apply Hall.
  unfold dict_values. apply list_elem_of_fmap. by exists (mz', y').
Qed.

(** ** Quantification at a retention time *)

Lemma quantify_analyte_snoc {Analyte} (l : list (Analysis.FID_Entry Analyte)) inj rt analyte :
  Analysis.quantify_analyte (l ++ [inj]) rt analyte
  = <[Analysis.yield_key inj := yield_value rt analyte inj]>
      (Analysis.quantify_analyte l rt analyte).
Proof. unfold Analysis.quantify_analyte. by rewrite foldl_app. Qed.

(** X12.  [quantify_analyte] returns a dictionary with exactly one entry
    per key of an injection (its plate position, or its sample name when
    the position is missing or empty); the entry is that of the last
    injection with the key: the percentage quantified at the flagged peak,
    or 0, never not-a-number, when no peak is flagged. *)
Theorem quantify_analyte_entries {Analyte}
    (fid_injections : list (Analysis.FID_Entry Analyte)) (rt : Q)
    (analyte : option Analyte) :
  let d := Analysis.quantify_analyte fid_injections rt analyte in
  (forall k, is_Some (d !! k) <->
             exists inj, inj ∈ fid_injections /\ Analysis.yield_key inj = k) /\
  (forall l1 inj l2, fid_injections = l1 ++ inj :: l2 ->
     (forall inj', inj' ∈ l2 -> Analysis.yield_key inj' <> Analysis.yield_key inj) ->
     d !! Analysis.yield_key inj = Some (yield_value rt analyte inj)) /\
  (forall inj, inj ∈ fid_injections ->
     Analysis.flag_peak inj rt analyte = None ->
     (forall inj', inj' ∈ fid_injections ->
        Analysis.yield_key inj' = Analysis.yield_key inj ->
        Analysis.flag_peak inj' rt analyte = None) ->
     d !! Analysis.yield_key inj = Some (Fin 0)) /\
  (size d <= length fid_injections)%nat.
Proof.
  simpl.
  assert (Hlast : forall l1 inj l2,
            (forall inj', inj' ∈ l2 -> Analysis.yield_key inj' <> Analysis.yield_key inj) ->
            Analysis.quantify_analyte (l1 ++ inj :: l2) rt analyte
              !! Analysis.yield_key inj = Some (yield_value rt analyte inj)).
  { intros l1 inj l2. induction l2 as [|x l2 IH] using rev_ind; intros Hne.
    - rewrite quantify_analyte_snoc. apply lookup_insert_eq.
    - replace (l1 ++ inj :: l2 ++ [x]) with ((l1 ++ inj :: l2) ++ [x])
        by (by rewrite <- app_assoc).
      rewrite quantify_analyte_snoc, lookup_insert_ne.
      + apply IH. intros inj' Hin. apply Hne. apply elem_of_app. by left.
      + apply Hne. apply elem_of_app. right. by left. }
  split; [|split; [|split]].
  - induction fid_injections as [|x l IH] using rev_ind; intros k.
    + unfold Analysis.quantify_analyte. simpl. rewrite lookup_empty. split.
      * by intros [? ?].
      * intros (inj & Hin & _). by apply elem_of_nil in Hin.
    + rewrite quantify_analyte_snoc, lookup_insert_is_Some, IH. split.
      * intros [<-|[_ (inj & Hin & <-)]].
        -- exists x. split; [|done]. apply elem_of_app. right. by left.
        -- exists inj. split; [|done]. apply elem_of_app. by left.
      * intros (inj & Hin & <-). apply elem_of_app in Hin as [Hin|Hin].
        -- destruct (decide (Analysis.yield_key x = Analysis.yield_key inj)); eauto.
        -- apply list_elem_of_singleton in Hin as ->. by left.
  - intros l1 inj l2 -> Hne. by apply Hlast.
  - induction fid_injections as [|x l IH] using rev_ind; intros inj Hin Hnone Hall.
    + by apply elem_of_nil in Hin.
    + rewrite quantify_analyte_snoc.
      destruct (decide (Analysis.yield_key x = Analysis.yield_key inj)) as [Heq|Hne].
      * rewrite Heq, lookup_insert_eq. unfold yield_value.
        rewrite (Hall x); [done| |done]. apply elem_of_app. right. by left.
      * rewrite lookup_insert_ne by done.
        apply elem_of_app in Hin as [Hin|Hin].
        -- apply IH; [done|done|]. intros inj' Hin'. apply Hall.
           apply elem_of_app. by left.
        -- apply list_elem_of_singleton in Hin as ->. done.
  - induction fid_injections as [|x l IH] using rev_ind.
    + unfold Analysis.quantify_analyte. simpl. by rewrite map_size_empty.
    + rewrite quantify_analyte_snoc, length_app. simpl.
      rewrite map_size_insert.
      destruct (Analysis.quantify_analyte l rt analyte !! Analysis.yield_key x);
        unfold id; lia.
Qed.

(** ** What the cross-modality loop returns and raises *)

Lemma foldM_Raise_inv {A S} (f : S -> A -> result S) (l : list A) (s : S) (e : exn) :
  foldM f s l = Raise e -> exists s1 a, a ∈ l /\ f s1 a = Raise e.
Proof.
  revert s. induction l as [|x l IH]; intros s H; simpl in H; [discriminate|].
  destruct (f s x) as [s1|e1] eqn:Hx; simpl in H.
  - destruct (IH s1 H) as (s2 & a & Ha & Hf). exists s2, a. split; [by right|done].
  - injection H as ->. exists s, x. split; [by left|done].
Qed.

Lemma match_and_quantify_step_raises {Analyte}
    (fid_sequence : gmap string (Analysis.FID_Injection Analyte)) layout mode index
    st name inj e :
  mode = "yield" \/ mode = "conv" ->
  Analysis.match_and_quantify_step fid_sequence layout mode index st (name, inj) = Raise e ->
  e = KeyError /\ fid_sequence !! name = None.
Proof.
  intros Hmode. destruct st as [an results].
  unfold Analysis.match_and_quantify_step.
  destruct (fid_sequence !! name) as [f|]; simpl; [|by intros [= <-]].
  destruct Hmode as [-> | ->]; simpl;
    (destruct (Analysis.match_mol inj _) as [m|];
     [destruct (Analysis.match_ri f _ _) as [r|]|]; discriminate).
Qed.

(** X13.  In yield and in conversion mode [__match_and_quantify] returns
    a dictionary exactly when the FID sequence holds an injection for
    the name of every MS injection; otherwise it raises [KeyError], also
    when the well concerned has no MS match. *)
Theorem match_and_quantify_succeeds_iff {Analyte}
    (ms_sequence : list (string * Analysis.MS_Injection Analyte))
    (fid_sequence : gmap string (Analysis.FID_Injection Analyte))
    (layout : Analysis.Layout Analyte) (mode : string) (index : Z) :
  mode = "yield" \/ mode = "conv" ->
  (is_ok (Analysis.match_and_quantify ms_sequence fid_sequence layout mode index) = true
   <-> forall n i, (n, i) ∈ ms_sequence -> is_Some (fid_sequence !! n)) /\
  (is_ok (Analysis.match_and_quantify ms_sequence fid_sequence layout mode index) = false
   -> Analysis.match_and_quantify ms_sequence fid_sequence layout mode index
      = Raise KeyError).
Proof.
  intros Hmode.
  assert (Hraise : forall e,
            Analysis.match_and_quantify ms_sequence fid_sequence layout mode index = Raise e ->
            e = KeyError /\ exists n i, (n, i) ∈ ms_sequence /\ fid_sequence !! n = None).
  { intros e. unfold Analysis.match_and_quantify.
    destruct (foldM _ _ _) as [st|e1] eqn:Hrun; simpl; [discriminate|].
    intros [= <-]. apply foldM_Raise_inv in Hrun as (s1 & [n i] & Hin & Hstep).
    apply match_and_quantify_step_raises in Hstep as [-> Hnone]; eauto. }
  split; [split|].
  - intros Hok n i Hin.
    destruct (Analysis.match_and_quantify _ _ _ _ _) as [d|e] eqn:Hrun; [|done].
    unfold Analysis.match_and_quantify in Hrun. inv_bind Hrun.
    eapply (foldM_Ok_step _ _ (n, i)) in Ha as (s1 & s2 & Hstep); [|done].
    destruct s1 as [an results]. unfold Analysis.match_and_quantify_step in Hstep.
    destruct (fid_sequence !! n); [eauto|discriminate].
  - intros Hall.
    destruct (match_and_quantify_total fid_sequence layout index ms_sequence mode Hmode Hall)
      as [d ->]. done.
  - destruct (Analysis.match_and_quantify _ _ _ _ _) as [d|e] eqn:Hrun; [done|].
    intros _. by destruct (Hraise e eq_refl) as [-> _].
Qed.



(** ** Modes that the loops do not know *)

(** X15.  Neither loop checks the mode before it visits an injection:
    on an empty sequence both return the empty dictionary for any mode.
    On a first injection the MS-only loop raises the [ValueError] of its
    mode test before it prints anything, while the cross-modality loop,
    which has no such test, raises [UnboundLocalError] on the analyte it
    never assigned once the FID injection is found. *)
Theorem unknown_mode_behaviour {Analyte} (mz : Analyte -> Q)
    (fid_sequence : gmap string (Analysis.FID_Injection Analyte))
    (layout : Analysis.Layout Analyte)
    (mode ms_quantification_mode relative_to : string) (index : Z)
    (name : string) (inj : Analysis.MS_Injection Analyte)
    (rest : list (string * Analysis.MS_Injection Analyte)) :
  mode <> "yield"%string -> mode <> "conv"%string ->
  Analysis.match_and_quantify [] fid_sequence layout mode index = Ok ∅ /\
  Analysis.ms_quantify mz [] layout mode ms_quantification_mode relative_to index
    = ([], Ok ∅) /\
  Analysis.ms_quantify mz ((name, inj) :: rest) layout mode ms_quantification_mode
    relative_to index
    = ([], Raise (ValueError "Mode must be either yield or conv")) /\
  Analysis.match_and_quantify ((name, inj) :: rest) fid_sequence layout mode index
    = match fid_sequence !! name with
      | Some _ => Raise (UnboundLocalError "analyte")
      | None => Raise KeyError
      end.
Proof.
  intros Hy Hc.
  apply String.eqb_neq in Hy, Hc.
  split; [done|]. split; [done|]. split.
  - unfold Analysis.ms_quantify. simpl. unfold Analysis.ms_quantify_step.
    rewrite Hy, Hc. done.
  - unfold Analysis.match_and_quantify. simpl.
    unfold Analysis.match_and_quantify_step at 1.
    destruct (fid_sequence !! name); simpl; [|done].
    rewrite Hy, Hc. done.
Qed.

(** ** What the MS-only loop records *)








(** ** Worked instances *)

Lemma spike_time_increasing :
  strictly_increasing (Peak_Detection_MS.chrom_time spike_chromatogram).
Proof.
  intros i j ti tj Hij Hi Hj.
  do 7 (destruct i as [|i];
        [do 7 (destruct j as [|j];
               [first [lia | simpl in Hi, Hj; simplify_eq; unfold Qlt; simpl; lia]|]);
         simpl in Hj; done|]).
  simpl in Hi. done.
Qed.

Lemma nearest_index_monotone_witness :
  strictly_increasing (Peak_Detection_MS.chrom_time spike_chromatogram) /\
  Peak_Detection_MS.nearest_index (Peak_Detection_MS.chrom_time spike_chromatogram) (3 # 2)
    = Ok 1%nat /\
  Peak_Detection_MS.nearest_index (Peak_Detection_MS.chrom_time spike_chromatogram) (9 # 2)
    = Ok 4%nat /\
  (1 <= 4)%nat.
Proof.
  split; [exact spike_time_increasing|]. split; [reflexivity|]. split; [reflexivity|].
  apply (nearest_index_monotone (Peak_Detection_MS.chrom_time spike_chromatogram)
           (3 # 2) (9 # 2) 1 4 spike_time_increasing).
  - unfold Qle. simpl. lia.
  - reflexivity.
  - reflexivity.
Defined.

Lemma nearest_index_exact_witness :
  Peak_Detection_MS.nearest_index (Peak_Detection_MS.chrom_time spike_chromatogram) (6 # 2)
  = Ok 3%nat.
Proof.
  apply (nearest_index_exact (Peak_Detection_MS.chrom_time spike_chromatogram)
           (6 # 2) 3 3 spike_time_increasing).
  - reflexivity.
  - unfold Qeq. simpl. lia.
Defined.

Lemma calculate_areas_succeeds_iff_witness :
  (is_ok (Peak_Detection_MS.calculate_areas spike_chromatogram [(2, 5); (4, 1)]) = true <->
   forall b start_idx end_idx, b ∈ [(2, 5); (4, 1)] ->
     Peak_Detection_MS.nearest_index (Peak_Detection_MS.chrom_time spike_chromatogram) b.1
       = Ok start_idx ->
     Peak_Detection_MS.nearest_index (Peak_Detection_MS.chrom_time spike_chromatogram) b.2
       = Ok end_idx ->
     (start_idx < end_idx)%nat) /\
  (forall b start_idx end_idx,
     Peak_Detection_MS.nearest_index (Peak_Detection_MS.chrom_time spike_chromatogram) b.1
       = Ok start_idx ->
     Peak_Detection_MS.nearest_index (Peak_Detection_MS.chrom_time spike_chromatogram) b.2
       = Ok end_idx ->
     (end_idx <= start_idx)%nat ->
     Peak_Detection_MS.peak_area spike_chromatogram b = Raise IndexError).
Proof.
  apply (calculate_areas_succeeds_iff spike_chromatogram [(2, 5); (4, 1)]).
  discriminate.
Defined.

Lemma pick_peaks_area_nonneg_witness : 0 <= Peak.area example_peak.
Proof.
  apply (pick_peaks_area_nonneg example_find_peaks check_interval_spec
           example_chromatogram example_scans example_settings example_peaks 1
           example_peak).
  - unfold example_chromatogram, Peak_Detection_MS.chrom_intensities. simpl.
    repeat (apply Forall_cons; split; [unfold Qle; simpl; lia|]). by constructor.
  - reflexivity.
  - by left.
Defined.

Lemma calculate_areas_scale_witness :
  exists areas',
    Peak_Detection_MS.calculate_areas (scale_intensities 2 spike_chromatogram) [(2, 5)]
      = Ok areas' /\
    Forall2 (fun a a' => a' == 2 * a) spike_areas areas'.
Proof.
  apply (calculate_areas_scale 2 spike_chromatogram [(2, 5)] spike_areas).
  reflexivity.
Defined.

Lemma peak_area_flat_witness :
  exists start_idx end_idx,
    Peak_Detection_MS.nearest_index (Peak_Detection_MS.chrom_time flat_chromatogram) 1
      = Ok start_idx /\
    Peak_Detection_MS.nearest_index (Peak_Detection_MS.chrom_time flat_chromatogram) 4
      = Ok end_idx /\
    (start_idx < end_idx)%nat /\
    flat_area == 2 * inject_Z (Z.of_nat (end_idx - start_idx) - 1).
Proof.
  apply (peak_area_flat flat_chromatogram 2 (1, 4) flat_area).
  - unfold flat_chromatogram, Peak_Detection_MS.chrom_intensities. simpl.
    repeat (apply Forall_cons; split; [reflexivity|]). by constructor.
  - reflexivity.
Defined.

Lemma pick_peaks_needs_positive_sample_witness :
  Peak_Detection_MS.pick_peaks (Analyte := unit) no_peaks check_interval_spec
    silent_chromatogram quiet_scans no_settings
  = Raise (ValueError
      "zero-size array to reduction operation minimum which has no identity").
Proof.
  apply (pick_peaks_needs_positive_sample no_peaks check_interval_spec
           silent_chromatogram quiet_scans no_settings).
  unfold silent_chromatogram, Peak_Detection_MS.chrom_intensities. simpl.
  repeat (apply Forall_cons; split; [unfold Qle; simpl; lia|]). by constructor.
Defined.

Lemma pick_peaks_needs_contributing_channel_witness :
  exists idx rts hs ws bs areas s1,
    Peak_Detection_MS.detect_peaks_scipy example_find_peaks example_chromatogram
      example_settings = Ok (idx, rts, hs, ws, bs, areas, s1) /\
    forall rt_i, rt_i ∈ rts ->
      contributes example_find_peaks check_interval_spec
        (Peak_Detection_MS.pop s1 "trace_prominence" 220).1
        (Peak_Detection_MS.scan_columns example_scans)
        (map (fun t => t / 60000) (Peak_Detection_MS.scan_index example_scans)) idx rt_i.
Proof.
  apply (pick_peaks_needs_contributing_channel example_find_peaks check_interval_spec
           example_chromatogram example_scans example_settings example_peaks).
  reflexivity.
Defined.


Lemma initialize_peaks_relative_intensities_witness :
  exists rt_i spectrum top,
    rt_i ∈ [1] /\
    dict_get [(1, [(50, 4); (77, 2)])] rt_i = Some spectrum /\
    Peak.mass_spectrum two_channel_peak
    = map (fun e : Q * Q => (e.1, e.2, relative_intensity top e.2)) spectrum /\
    top ∈ dict_values spectrum /\
    Forall (fun y => y <= top) (dict_values spectrum) /\
    (0 < top ->
     forall mz y rel, (mz, y, rel) ∈ Peak.mass_spectrum two_channel_peak ->
       exists q, rel = Fin q /\ q <= 100 /\ (y == top -> q == 100)).
Proof.
  apply (initialize_peaks_relative_intensities [1] [5] [2] [(0, 2)]
           [(1, [(50, 4); (77, 2)])] [7] two_channel_peaks 1 two_channel_peak).
  - reflexivity.
  - by left.
Defined.

Lemma match_and_quantify_succeeds_iff_witness :
  (is_ok (Analysis.match_and_quantify example_ms_sequence example_fid_sequence
            example_layout "conv" 0) = true
   <-> forall n i, (n, i) ∈ example_ms_sequence -> is_Some (example_fid_sequence !! n)) /\
  (is_ok (Analysis.match_and_quantify example_ms_sequence example_fid_sequence
            example_layout "conv" 0) = false
   -> Analysis.match_and_quantify example_ms_sequence example_fid_sequence
        example_layout "conv" 0 = Raise KeyError).
Proof.
  apply (match_and_quantify_succeeds_iff example_ms_sequence example_fid_sequence
           example_layout "conv" 0).
  right. reflexivity.
Defined.


Lemma unknown_mode_behaviour_witness :
  Analysis.match_and_quantify [] example_fid_sequence example_layout "ratio" 0 = Ok ∅ /\
  Analysis.ms_quantify example_mz [] example_layout "ratio" "area" "standard" 0
    = ([], Ok ∅) /\
  Analysis.ms_quantify example_mz [("s1"%string, injection_A1)] example_layout "ratio"
    "area" "standard" 0
    = ([], Raise (ValueError "Mode must be either yield or conv")) /\
  Analysis.match_and_quantify [("s1"%string, injection_A1)] example_fid_sequence
    example_layout "ratio" 0
    = match example_fid_sequence !! "s1"%string with
      | Some _ => Raise (UnboundLocalError "analyte")
      | None => Raise KeyError
      end.
Proof.
  apply (unknown_mode_behaviour example_mz example_fid_sequence example_layout
           "ratio" "area" "standard" 0 "s1" injection_A1 []); discriminate.
Defined.


